(** * snowpack: [src/plugins.ts]

    A shallow embedding of the plugin loader of snowpack
    ([parseScript], [loadPlugins], [createBuildPipeline]) together with
    the properties of these functions that the specification states.

    Conventions of the model.
    - A JavaScript string is a Rocq [string] of ASCII characters.
    - A [Record<string, T>] whose enumeration order is observed is an
      association list in insertion order; one that is only looked up is
      a [gmap string T].  The pipeline of [createBuildPipeline] is
      read through [pipeline[ext]], which also finds the members that a
      plain object inherits from [Object.prototype]: they are part of
      the model.  The keys of [config.scripts], [scriptPlugins] and
      [buildCommands] are taken not to be array indices (which
      JavaScript enumerates first) nor such inherited names.
    - [handleError] prints its message and calls [process.exit(1)]: the
      call never returns.  A run of [loadPlugins] therefore has one of
      three outcomes: it returns, it exits through [handleError], or a
      JavaScript exception escapes it.
    - Every call of a plugin factory returns an object of its own, so
      that the assignments to [plugin.input], [plugin.output] and
      [plugin.name] are seen through that one reference only. *)

From Stdlib Require Import String Ascii List ZArith Lia Bool.
From stdpp Require Import base option list gmap strings pretty.

Local Open Scope string_scope.
Local Open Scope list_scope.

(** ** JavaScript string primitives *)

Module JsString.

(** [String.prototype.toLowerCase], on ASCII: [A]..[Z] move to [a]..[z]. *)
Definition lower_char (c : ascii) : ascii :=
  let n := nat_of_ascii c in
  if (65 <=? n)%nat && (n <=? 90)%nat then ascii_of_nat (n + 32) else c.

Fixpoint toLowerCase (s : string) : string :=
  match s with
  | EmptyString => EmptyString
  | String c r => String (lower_char c) (toLowerCase r)
  end.

(** Prepend a character to the first string of a list. *)
Definition cons_head (c : ascii) (l : list string) : list string :=
  match l with
  | [] => [String c EmptyString]
  | w :: ws => String c w :: ws
  end.

(** [s.split(sep)] for a one-character separator. *)
Fixpoint split (sep : ascii) (s : string) : list string :=
  match s with
  | EmptyString => [EmptyString]
  | String c r =>
      if Ascii.eqb c sep then EmptyString :: split sep r
      else cons_head c (split sep r)
  end.

(** The characters matched by [\s] and removed by [trim], on ASCII:
    tab, line feed, vertical tab, form feed, carriage return, space. *)
Definition is_space (c : ascii) : bool :=
  let n := nat_of_ascii c in
  ((9 <=? n)%nat && (n <=? 13)%nat) || (n =? 32)%nat.

(** [s.split(/\s+/)]: every maximal run of white space is one separator.
    [skipping] records that the previous character belonged to a run. *)
Fixpoint split_spaces_from (skipping : bool) (s : string) : list string :=
  match s with
  | EmptyString => [EmptyString]
  | String c r =>
      if is_space c then
        if skipping then split_spaces_from true r
        else EmptyString :: split_spaces_from true r
      else cons_head c (split_spaces_from false r)
  end.

Definition split_spaces (s : string) : list string :=
  split_spaces_from false s.

Fixpoint trimStart (s : string) : string :=
  match s with
  | EmptyString => EmptyString
  | String c r => if is_space c then trimStart r else s
  end.

Fixpoint trimEnd (s : string) : string :=
  match s with
  | EmptyString => EmptyString
  | String c r =>
      match trimEnd r with
      | EmptyString => if is_space c then EmptyString else String c EmptyString
      | r' => String c r'
      end
  end.

(** [s.trim()] *)
Definition trim (s : string) : string := trimEnd (trimStart s).

(** [s.replace(/^\./, '')]: drop one leading dot, when there is one. *)
Definition drop_leading_dot (s : string) : string :=
  match s with
  | String "."%char r => r
  | _ => s
  end.

(** [l.join(sep)] *)
Fixpoint join (sep : string) (l : list string) : string :=
  match l with
  | [] => EmptyString
  | [w] => w
  | w :: ws => w +:+ sep +:+ join sep ws
  end.

(** [s[0] === c] *)
Definition starts_with (c : ascii) (s : string) : bool :=
  match s with
  | String d _ => Ascii.eqb d c
  | EmptyString => false
  end.

(** [s[s.length - 1] === c] *)
Fixpoint ends_with (c : ascii) (s : string) : bool :=
  match s with
  | EmptyString => false
  | String d EmptyString => Ascii.eqb d c
  | String _ r => ends_with c r
  end.

(** [[...new Set(l)]]: the distinct elements of [l], each at the place of
    its first occurrence. *)
Fixpoint unique (l : list string) : list string :=
  match l with
  | [] => []
  | x :: t => x :: filter (λ y, y ≠ x) (unique t)
  end.

End JsString.

(** ** Outcomes of a run *)

(** The exceptions that can escape the module. *)
Inductive JsException :=
  | TypeError
  | ReferenceError
  | ModuleLoadError.

(** One constructor per call of [handleError], with the values that are
    interpolated in its message. *)
Inductive ConfigError :=
  | MountCommandExpected (target : string)
      (* scripts[target] must use the mount command *)
  | MountFormatExpected (target : string)
      (* scripts[target] must use the format: "mount dir [--to /PATH]" *)
  | MountToNotAbsolute (target : string)
      (* scripts[target]: "--to ..." must be a URL path, and start with a "/" *)
  | BundlerLoadFailure (bundlerName : string)
      (* Failed to load plugin "bundlerName". ... *)
  | LoadedInBoth (pluginName : string)
      (* [pluginName]: loaded in both `scripts` and `plugins`. ... *)
  | MissingInput (pluginName : string).
      (* [pluginName]: missing input options *)

Inductive Outcome (A : Type) :=
  | Ok (a : A)
  | Exit (e : ConfigError)
  | Throw (e : JsException).
Arguments Ok {A} a.
Arguments Exit {A} e.
Arguments Throw {A} e.

(** Sequencing: the first step that does not return ends the run. *)
#[global] Instance outcome_bind : MBind Outcome := λ A B k m,
  match m with
  | Ok a => k a
  | Exit e => Exit e
  | Throw e => Throw e
  end.

(** [l.forEach(step)] threading the captured variables [st] through the
    calls; the first call that does not return ends the loop. *)
Fixpoint forEach {S A} (step : S → A → Outcome S) (st : S) (l : list A)
  : Outcome S :=
  match l with
  | [] => Ok st
  | a :: t => st' ← step st a; forEach step st' t
  end.

(** ** [parseScript] *)

Record ParsedScript := {
  scriptType : string;
  extensions : list string;
}.

(** The body of the [map] callback: [`.${ext}`.replace(/^\./, '').trim()]. *)
Definition normalizeExtension (ext : string) : string :=
  JsString.trim (JsString.drop_leading_dot ("." +:+ ext)).

(** [const [scriptType, extMatch] = script.toLowerCase().split(':')]
    leaves [extMatch] undefined when the key has no colon; the call
    [extMatch.split(',')] then throws. *)
Definition parseScript (script : string) : Outcome ParsedScript :=
  match JsString.split ":" (JsString.toLowerCase script) with
  | scriptType :: extMatch :: _ =>
      Ok {| scriptType := scriptType;
            extensions :=
              JsString.unique (map normalizeExtension (JsString.split "," extMatch)) |}
  | _ => Throw TypeError
  end.

(** ** Data model *)

(** [string | string[]], the type of [plugin.input] and [plugin.output]. *)
Inductive Extensions :=
  | OneExtension (ext : string)
  | ExtensionList (exts : list string).

(** [SnowpackPlugin], declared in [./config].  The members that
    [plugins.ts] reads or writes are fields, each of them absent
    ([None]) when the loaded object does not have it; the build and
    transform hooks are never read here and travel as [hooks]. *)
Module SnowpackPlugin.
Record t := {
  name : option string;
  input : option Extensions;
  output : option Extensions;
  defaultBuildScript : option string;
  hooks : string;
}.
End SnowpackPlugin.

Module RunCmd.
Record t := { id : string; cmd : string }.
End RunCmd.

Module MountedDir.
Record t := { id : string; fromDisk : string; toUrl : string }.
End MountedDir.

(** An entry of [config.plugins]: a specifier, or a pair of a specifier
    and its options.  Options are opaque to this module. *)
Inductive PluginRef :=
  | Specifier (pluginName : string)
  | WithOptions (pluginName : string) (pluginOptions : string).

(** [SnowpackConfig], declared in [./config]: [scripts] lists the
    properties of [config.scripts] in the order of [Object.entries]. *)
Module SnowpackConfig.
Record t := {
  scripts : list (string * string);
  plugins : list PluginRef;
}.
End SnowpackConfig.

(** [o[key]] on an object given by its entries. *)
Fixpoint property {V} (key : string) (o : list (string * V)) : option V :=
  match o with
  | [] => None
  | (k, v) :: rest => if String.eqb k key then Some v else property key rest
  end.

(** [o[key] = v]: an existing property keeps its place, a new one is
    added last. *)
Fixpoint set_property {V} (key : string) (v : V) (o : list (string * V))
  : list (string * V) :=
  match o with
  | [] => [(key, v)]
  | (k, w) :: rest =>
      if String.eqb k key then (k, v) :: rest
      else (k, w) :: set_property key v rest
  end.

(** Truthiness of a string that may be undefined. *)
Definition truthy_string (s : option string) : bool :=
  match s with
  | Some (String _ _) => true
  | _ => false
  end.

(** Truthiness of [plugin.input]: an array is truthy even when empty. *)
Definition truthy_extensions (e : option Extensions) : bool :=
  match e with
  | Some (ExtensionList _) => true
  | Some (OneExtension s) => truthy_string (Some s)
  | None => false
  end.

(** ** The host: what the module imports *)

(** The value of a command-line option as [yargs-parser] returns it. *)
Inductive ArgValue :=
  | VUndefined
  | VBoolean (b : bool)
  | VNumber (n : Z)
  | VString (s : string)
  | VArray (l : list string).

Module ArgValue.

Definition truthy (v : ArgValue) : bool :=
  match v with
  | VUndefined => false
  | VBoolean b => b
  | VNumber n => negb (n =? 0)%Z
  | VString s => truthy_string (Some s)
  | VArray _ => true
  end.

(** [v[0]] *)
Definition first (v : ArgValue) : option string :=
  match v with
  | VString (String c _) => Some (String c EmptyString)
  | VArray (x :: _) => Some x
  | _ => None
  end.

(** The string that [v + '/'] starts with. *)
Definition toString (v : ArgValue) : string :=
  match v with
  | VUndefined => "undefined"
  | VBoolean true => "true"
  | VBoolean false => "false"
  | VNumber n => pretty n
  | VString s => s
  | VArray l => JsString.join "," l
  end.

End ArgValue.

(** The two members of [yargs(cmdArr)] that are read: the option [to] and
    the positional arguments [_]. *)
Record Argv := {
  to : ArgValue;
  positionals : list string;
}.

(** Everything [plugins.ts] takes from outside.
    - [requirePlugin config specifier options] is
      [require(require.resolve(specifier, {paths: [process.cwd()]}))(config, options)];
      it is [None] when the resolution or the factory throws, or when the
      factory returns no object.  [options] is [None] where the source
      passes one argument only.
    - [yargs] is the [yargs-parser] package.
    - [DEV_DEPENDENCIES_DIR] is the constant of [./util].
    - [global_name] is the binding that the free identifier [name] of
      line 173 resolves to: the module neither declares nor imports it,
      so it is looked up on the global object.  [None]: there is no such
      binding, as under Node.js; [Some b]: it is bound to a value of
      truthiness [b]. *)
Record Host := {
  requirePlugin : SnowpackConfig.t → string → option string → option SnowpackPlugin.t;
  yargs : list string → Argv;
  DEV_DEPENDENCIES_DIR : string;
  global_name : option bool;
}.

(** [path.posix.normalize] of Node.js. *)
Module JsPath.

(** [normalizeString]: the segments that remain once empty segments and
    [.] are dropped and [..] has removed the segment before it.  [res]
    holds the segments kept so far, last one first. *)
Fixpoint normalizeSegments (allowAboveRoot : bool) (res : list string)
    (segments : list string) : list string :=
  match segments with
  | [] => rev res
  | seg :: rest =>
      if String.eqb seg "" || String.eqb seg "." then
        normalizeSegments allowAboveRoot res rest
      else if String.eqb seg ".." then
        match res with
        | last :: res' =>
            if String.eqb last ".." then
              normalizeSegments allowAboveRoot
                (if allowAboveRoot then ".." :: res else res) rest
            else normalizeSegments allowAboveRoot res' rest
        | [] =>
            normalizeSegments allowAboveRoot
              (if allowAboveRoot then [".."] else []) rest
        end
      else normalizeSegments allowAboveRoot (seg :: res) rest
  end.

Definition normalize (path : string) : string :=
  if String.eqb path "" then "." else
  let isAbsolute := JsString.starts_with "/" path in
  let trailingSeparator := JsString.ends_with "/" path in
  let path' :=
    JsString.join "/"
      (normalizeSegments (negb isAbsolute) [] (JsString.split "/" path)) in
  if String.eqb path' "" then
    if isAbsolute then "/" else if trailingSeparator then "./" else "."
  else
    let path'' := if trailingSeparator then path' +:+ "/" else path' in
    if isAbsolute then "/" +:+ path'' else path''.

End JsPath.

(** ** [loadPlugins] *)

(** The variables that the two [forEach] callbacks of [loadPlugins]
    capture and update. *)
Module Locals.
Record t := {
  plugins : list SnowpackPlugin.t;
  runCommands : list RunCmd.t;
  mountedDirs : list MountedDir.t;
  bundler : option SnowpackPlugin.t;
  scriptPlugins : list (string * SnowpackPlugin.t);
  buildCommands : gmap string RunCmd.t;
}.

Definition initial : t :=
  {| plugins := []; runCommands := []; mountedDirs := []; bundler := None;
     scriptPlugins := []; buildCommands := ∅ |}.

Definition with_plugins (f : list SnowpackPlugin.t → list SnowpackPlugin.t) (st : t) : t :=
  {| plugins := f (plugins st); runCommands := runCommands st;
     mountedDirs := mountedDirs st; bundler := bundler st;
     scriptPlugins := scriptPlugins st; buildCommands := buildCommands st |}.

Definition with_runCommands (f : list RunCmd.t → list RunCmd.t) (st : t) : t :=
  {| plugins := plugins st; runCommands := f (runCommands st);
     mountedDirs := mountedDirs st; bundler := bundler st;
     scriptPlugins := scriptPlugins st; buildCommands := buildCommands st |}.

Definition with_mountedDirs (f : list MountedDir.t → list MountedDir.t) (st : t) : t :=
  {| plugins := plugins st; runCommands := runCommands st;
     mountedDirs := f (mountedDirs st); bundler := bundler st;
     scriptPlugins := scriptPlugins st; buildCommands := buildCommands st |}.

Definition with_bundler (b : option SnowpackPlugin.t) (st : t) : t :=
  {| plugins := plugins st; runCommands := runCommands st;
     mountedDirs := mountedDirs st; bundler := b;
     scriptPlugins := scriptPlugins st; buildCommands := buildCommands st |}.

Definition with_scriptPlugins
    (f : list (string * SnowpackPlugin.t) → list (string * SnowpackPlugin.t)) (st : t) : t :=
  {| plugins := plugins st; runCommands := runCommands st;
     mountedDirs := mountedDirs st; bundler := bundler st;
     scriptPlugins := f (scriptPlugins st); buildCommands := buildCommands st |}.

Definition with_buildCommands
    (f : gmap string RunCmd.t → gmap string RunCmd.t) (st : t) : t :=
  {| plugins := plugins st; runCommands := runCommands st;
     mountedDirs := mountedDirs st; bundler := bundler st;
     scriptPlugins := scriptPlugins st; buildCommands := f (buildCommands st) |}.
End Locals.

(** The object that [loadPlugins] returns. *)
Module Loaded.
Record t := {
  plugins : list SnowpackPlugin.t;
  bundler : option SnowpackPlugin.t;
  runCommands : list RunCmd.t;
  buildCommands : gmap string RunCmd.t;
  mountedDirs : list MountedDir.t;
}.
End Loaded.

(** The [try] of [loadPluginFromScript] turns every failure into
    [undefined]; no options are passed. *)
Definition loadPluginFromScript (h : Host) (config : SnowpackConfig.t)
    (specifier : string) : option SnowpackPlugin.t :=
  requirePlugin h config specifier None.

(** [loadPluginFromConfig] lets the failure escape. *)
Definition loadPluginFromConfig (h : Host) (config : SnowpackConfig.t)
    (name : string) (options : string) : Outcome SnowpackPlugin.t :=
  match requirePlugin h config name (Some options) with
  | Some plugin => Ok plugin
  | None => Throw ModuleLoadError
  end.

(** *** Line 71: [let {input, output} = loadPlugins[pluginName]]

    The object indexed here is the function [loadPlugins] itself, not
    [scriptPlugins].  A function object has the members below, its own
    or inherited; none of them has a member [input] or [output].  Every
    other key yields [undefined]. *)
Definition function_members : list string :=
  ["length"; "name"; "prototype"; "constructor"; "apply"; "bind"; "call";
   "toString"; "toLocaleString"; "valueOf"; "hasOwnProperty";
   "isPrototypeOf"; "propertyIsEnumerable"; "__proto__"].

Inductive Member :=
  | MUndefined
  | MBuiltin.

Definition loadPlugins_member (key : string) : Member :=
  if existsb (String.eqb key) function_members then MBuiltin else MUndefined.

(** Destructuring [undefined] throws; destructuring anything else binds
    the two variables to the members [input] and [output] of the value. *)
Definition destructure_input_output (v : Member)
  : Outcome (option (list string) * option (list string)) :=
  match v with
  | MUndefined => Throw TypeError
  | MBuiltin => Ok (None, None)
  end.

(** [[...new Set([...xs, ...extensions])]]: spreading [undefined] throws. *)
Definition spread_unique (xs : option (list string)) (extensions : list string)
  : Outcome (list string) :=
  match xs with
  | None => Throw TypeError
  | Some l => Ok (JsString.unique (l ++ extensions))
  end.

(** [cmdArr[0]] inside a template or a concatenation. *)
Definition first_token (cmdArr : list string) : string :=
  match cmdArr with
  | tok :: _ => tok
  | [] => "undefined"
  end.

(** The [case 'mount'] of the switch, up to the object that is pushed. *)
Definition parseMount (h : Host) (target cmd : string) : Outcome MountedDir.t :=
  let cmdArr := JsString.split_spaces cmd in
  if negb (bool_decide (head cmdArr = Some "mount")) then
    Exit (MountCommandExpected target)
  else
    let cmdArr := tail cmdArr in
    let argv := yargs h cmdArr in
    if negb (length (positionals argv) =? 1)%nat then
      Exit (MountFormatExpected target)
    else if ArgValue.truthy (to argv)
            && negb (bool_decide (ArgValue.first (to argv) = Some "/")) then
      Exit (MountToNotAbsolute target)
    else
      let dirDisk := first_token cmdArr in
      let dirUrl :=
        if ArgValue.truthy (to argv) then ArgValue.toString (to argv)
        else "/" +:+ first_token cmdArr in
      let dirDisk :=
        if String.eqb target "mount:web_modules" then DEV_DEPENDENCIES_DIR h
        else dirDisk in
      Ok {| MountedDir.id := target;
            MountedDir.fromDisk := JsPath.normalize (dirDisk +:+ "/");
            MountedDir.toUrl := JsPath.normalize (dirUrl +:+ "/") |}.

(** [{...plugin, name: pluginName, input: extensions, output: extensions}] *)
Definition scriptPlugin (plugin : SnowpackPlugin.t) (pluginName : string)
    (extensions : list string) : SnowpackPlugin.t :=
  {| SnowpackPlugin.name := Some pluginName;
     SnowpackPlugin.input := Some (ExtensionList extensions);
     SnowpackPlugin.output := Some (ExtensionList extensions);
     SnowpackPlugin.defaultBuildScript := SnowpackPlugin.defaultBuildScript plugin;
     SnowpackPlugin.hooks := SnowpackPlugin.hooks plugin |}.

Definition with_name (n : string) (plugin : SnowpackPlugin.t) : SnowpackPlugin.t :=
  {| SnowpackPlugin.name := Some n;
     SnowpackPlugin.input := SnowpackPlugin.input plugin;
     SnowpackPlugin.output := SnowpackPlugin.output plugin;
     SnowpackPlugin.defaultBuildScript := SnowpackPlugin.defaultBuildScript plugin;
     SnowpackPlugin.hooks := SnowpackPlugin.hooks plugin |}.

Definition with_input_output (extensions : list string) (plugin : SnowpackPlugin.t)
  : SnowpackPlugin.t :=
  {| SnowpackPlugin.name := SnowpackPlugin.name plugin;
     SnowpackPlugin.input := Some (ExtensionList extensions);
     SnowpackPlugin.output := Some (ExtensionList extensions);
     SnowpackPlugin.defaultBuildScript := SnowpackPlugin.defaultBuildScript plugin;
     SnowpackPlugin.hooks := SnowpackPlugin.hooks plugin |}.

(** The callback of [Object.entries(config.scripts).forEach] (lines 56-134). *)
Definition scriptStep (h : Host) (config : SnowpackConfig.t) (st : Locals.t)
    (entry : string * string) : Outcome Locals.t :=
  let '(target, cmd) := entry in
  parsed ← parseScript target;
  let extensions := extensions parsed in
  if String.eqb (scriptType parsed) "run" then
    Ok (Locals.with_runCommands
          (λ l, l ++ [{| RunCmd.id := target; RunCmd.cmd := cmd |}]) st)
  else if String.eqb (scriptType parsed) "build" then
    let pluginName := cmd in
    match loadPluginFromScript h config pluginName with
    | Some plugin =>
        match property pluginName (Locals.scriptPlugins st) with
        | Some _ =>
            '(input, output) ← destructure_input_output (loadPlugins_member pluginName);
            _ ← spread_unique input extensions;
            _ ← spread_unique output extensions;
            (* the two assignments change the variables [input] and
               [output] of this block, nothing else *)
            Ok st
        | None =>
            Ok (Locals.with_scriptPlugins
                  (set_property pluginName (scriptPlugin plugin pluginName extensions)) st)
        end
    | None =>
        Ok (Locals.with_buildCommands
              (λ m, foldl (λ m ext, <[ext := {| RunCmd.id := target; RunCmd.cmd := cmd |}]> m)
                          m extensions) st)
    end
  else if String.eqb (scriptType parsed) "mount" then
    dir ← parseMount h target cmd;
    Ok (Locals.with_mountedDirs (λ l, l ++ [dir]) st)
  else if String.eqb (scriptType parsed) "bundle" then
    let bundlerName := cmd in
    match loadPluginFromScript h config bundlerName with
    | None => Exit (BundlerLoadFailure bundlerName)
    | Some bundler =>
        let bundler :=
          if negb (truthy_string (SnowpackPlugin.name bundler))
          then with_name bundlerName bundler else bundler in
        Ok (Locals.with_bundler (Some bundler) st)
    end
  else Ok st.

Definition pluginName_of (ref : PluginRef) : string :=
  match ref with
  | Specifier n => n
  | WithOptions n _ => n
  end.

(** [Array.isArray(ref) ? ref[1] : {}] *)
Definition pluginOptions_of (ref : PluginRef) : string :=
  match ref with
  | Specifier _ => "{}"
  | WithOptions _ o => o
  end.

(** The callback of [config.plugins.forEach] (lines 148-179). *)
Definition pluginStep (h : Host) (config : SnowpackConfig.t) (st : Locals.t)
    (ref : PluginRef) : Outcome Locals.t :=
  let pluginName := pluginName_of ref in
  let pluginOptions := pluginOptions_of ref in
  match property pluginName (Locals.scriptPlugins st) with
  | Some _ => Exit (LoadedInBoth pluginName)
  | None =>
      plugin ← loadPluginFromConfig h config pluginName pluginOptions;
      if negb (truthy_string (SnowpackPlugin.defaultBuildScript plugin))
         && negb (truthy_extensions (SnowpackPlugin.input plugin)) then
        Exit (MissingInput pluginName)
      else
        plugin ←
          (if truthy_string (SnowpackPlugin.defaultBuildScript plugin)
              && negb (truthy_extensions (SnowpackPlugin.input plugin)) then
             parsed ← parseScript (default "" (SnowpackPlugin.defaultBuildScript plugin));
             Ok (with_input_output (extensions parsed) plugin)
           else Ok plugin);
        (* if (!name): [name] is not [plugin.name] *)
        plugin ←
          match global_name h with
          | None => Throw ReferenceError
          | Some true => Ok plugin
          | Some false => Ok (with_name pluginName plugin)
          end;
        Ok (Locals.with_plugins (λ l, l ++ [plugin]) st)
  end.

(** The mount that is added when [config.scripts] has none for
    [mount:web_modules] (lines 139-145). *)
Definition webModulesMount (h : Host) : MountedDir.t :=
  {| MountedDir.id := "mount:web_modules";
     MountedDir.fromDisk := DEV_DEPENDENCIES_DIR h;
     MountedDir.toUrl := "/web_modules" |}.

(** Part 1 of [loadPlugins] (lines 52-145): the scripts, the plugins they
    name, and the mount of the dependency directory. *)
Definition loadScripts (h : Host) (config : SnowpackConfig.t) : Outcome Locals.t :=
  st ← forEach (scriptStep h config) Locals.initial (SnowpackConfig.scripts config);
  let st := Locals.with_plugins (λ l, l ++ map snd (Locals.scriptPlugins st)) st in
  Ok (if negb (truthy_string (property "mount:web_modules" (SnowpackConfig.scripts config)))
      then Locals.with_mountedDirs (λ l, l ++ [webModulesMount h]) st
      else st).

(** The whole function: part 1, then [config.plugins] (lines 147-179),
    then the object that is returned. *)
Definition loadPlugins (h : Host) (config : SnowpackConfig.t) : Outcome Loaded.t :=
  st ← loadScripts h config;
  st ← forEach (pluginStep h config) st (SnowpackConfig.plugins config);
  Ok {| Loaded.plugins := Locals.plugins st;
        Loaded.bundler := Locals.bundler st;
        Loaded.runCommands := Locals.runCommands st;
        Loaded.buildCommands := Locals.buildCommands st;
        Loaded.mountedDirs := Locals.mountedDirs st |}.

(** ** [createBuildPipeline] *)

(** [Array.isArray(plugin.input) ? plugin.input : [plugin.input]]; as a
    property key, an undefined [input] is the string ["undefined"]. *)
Definition inputs (plugin : SnowpackPlugin.t) : list string :=
  match SnowpackPlugin.input plugin with
  | Some (ExtensionList exts) => exts
  | Some (OneExtension ext) => [ext]
  | None => ["undefined"]
  end.

(** The members that every plain object inherits from
    [Object.prototype]: [pipeline[key]] is truthy for each of them (a
    function, or the prototype itself for [__proto__]), and none of
    these values has a method [push]. *)
Definition objectPrototypeMembers : list string :=
  ["constructor"; "__defineGetter__"; "__defineSetter__"; "hasOwnProperty";
   "__lookupGetter__"; "__lookupSetter__"; "isPrototypeOf";
   "propertyIsEnumerable"; "toString"; "valueOf"; "__proto__"; "toLocaleString"].

Definition inherited (key : string) : bool :=
  existsb (String.eqb key) objectPrototypeMembers.

(** The inner callback: [if (pipeline[ext]) pipeline[ext].push(plugin);
    else pipeline[ext] = [plugin]].  The map holds the own properties of
    [pipeline], which are arrays.  Where [ext] is no own property but an
    inherited member, the test succeeds and the call of [push] throws. *)
Definition addPlugin (plugin : SnowpackPlugin.t)
    (pipeline : gmap string (list SnowpackPlugin.t)) (ext : string)
  : Outcome (gmap string (list SnowpackPlugin.t)) :=
  match pipeline !! ext with
  | Some chain => Ok (<[ext := chain ++ [plugin]]> pipeline)
  | None =>
      if inherited ext then Throw TypeError
      else Ok (<[ext := [plugin]]> pipeline)
  end.

(** The outer callback. *)
Definition indexPlugin (pipeline : gmap string (list SnowpackPlugin.t))
    (plugin : SnowpackPlugin.t) : Outcome (gmap string (list SnowpackPlugin.t)) :=
  forEach (addPlugin plugin) pipeline (inputs plugin).

Definition createBuildPipeline (plugins : list SnowpackPlugin.t)
  : Outcome (gmap string (list SnowpackPlugin.t)) :=
  forEach indexPlugin ∅ plugins.

(** ** Hosts used to run the functions on concrete configurations *)

Module Fixture.

(** [yargs-parser] on the command lines that the mount format allows:
    words, and the option [--to] followed by its value. *)
Fixpoint parseArgs (args : list string) : Argv :=
  match args with
  | [] => {| to := VUndefined; positionals := [] |}
  | w :: rest =>
      if String.eqb w "--to" then
        match rest with
        | v :: rest' =>
            {| to := VString v; positionals := positionals (parseArgs rest') |}
        | [] => {| to := VBoolean true; positionals := [] |}
        end
      else
        let argv := parseArgs rest in
        {| to := to argv; positionals := w :: positionals argv |}
  end.

(** What the factory of an installed build plugin returns when it
    declares nothing but hooks. *)
Definition barePlugin : SnowpackPlugin.t :=
  {| SnowpackPlugin.name := None;
     SnowpackPlugin.input := None;
     SnowpackPlugin.output := None;
     SnowpackPlugin.defaultBuildScript := None;
     SnowpackPlugin.hooks := "build" |}.

(** A plugin written for the [plugins] list: it declares its name and
    its extensions. *)
Definition sveltePlugin : SnowpackPlugin.t :=
  {| SnowpackPlugin.name := Some "svelte";
     SnowpackPlugin.input := Some (ExtensionList [".svelte"]);
     SnowpackPlugin.output := Some (ExtensionList [".js"; ".css"]);
     SnowpackPlugin.defaultBuildScript := None;
     SnowpackPlugin.hooks := "build" |}.

(** A plugin of the earlier interface: a build script and no name. *)
Definition vuePlugin : SnowpackPlugin.t :=
  {| SnowpackPlugin.name := None;
     SnowpackPlugin.input := None;
     SnowpackPlugin.output := None;
     SnowpackPlugin.defaultBuildScript := Some "build:vue";
     SnowpackPlugin.hooks := "build" |}.

(** A plugin whose [input] is one string. *)
Definition cssPlugin : SnowpackPlugin.t :=
  {| SnowpackPlugin.name := Some "css";
     SnowpackPlugin.input := Some (OneExtension ".css");
     SnowpackPlugin.output := Some (OneExtension ".css");
     SnowpackPlugin.defaultBuildScript := None;
     SnowpackPlugin.hooks := "build" |}.

(** Three packages are installed. *)
Definition installed (specifier : string) : option SnowpackPlugin.t :=
  if String.eqb specifier "@snowpack/plugin-babel" then Some barePlugin
  else if String.eqb specifier "@snowpack/plugin-svelte" then Some sveltePlugin
  else if String.eqb specifier "@snowpack/plugin-vue" then Some vuePlugin
  else None.

(** Node.js: no global [name]. *)
Definition node : Host :=
  {| requirePlugin := λ _ specifier _, installed specifier;
     yargs := parseArgs;
     DEV_DEPENDENCIES_DIR := "/project/node_modules/.cache/snowpack/dev";
     global_name := None |}.

(** A host whose global object has a property [name]. *)
Definition withGlobalName (b : bool) : Host :=
  {| requirePlugin := λ _ specifier _, installed specifier;
     yargs := parseArgs;
     DEV_DEPENDENCIES_DIR := "/project/node_modules/.cache/snowpack/dev";
     global_name := Some b |}.

(** Configurations. *)
Definition twoBuildDirectives : SnowpackConfig.t :=
  {| SnowpackConfig.scripts :=
       [("build:js", "@snowpack/plugin-babel"); ("build:jsx", "@snowpack/plugin-babel")];
     SnowpackConfig.plugins := [] |}.

Definition oneBuildDirective : SnowpackConfig.t :=
  {| SnowpackConfig.scripts := [("build:js,jsx", "@snowpack/plugin-babel")];
     SnowpackConfig.plugins := [] |}.

Definition declaredTwice : SnowpackConfig.t :=
  {| SnowpackConfig.scripts := [("build:js", "@snowpack/plugin-babel")];
     SnowpackConfig.plugins := [Specifier "@snowpack/plugin-babel"] |}.

Definition declaredTwiceAfterBadMount : SnowpackConfig.t :=
  {| SnowpackConfig.scripts :=
       [("mount:public", "copy public"); ("build:js", "@snowpack/plugin-babel")];
     SnowpackConfig.plugins := [Specifier "@snowpack/plugin-babel"] |}.

Definition sveltePlugins : SnowpackConfig.t :=
  {| SnowpackConfig.scripts := [];
     SnowpackConfig.plugins := [Specifier "@snowpack/plugin-svelte"] |}.

Definition vuePlugins : SnowpackConfig.t :=
  {| SnowpackConfig.scripts := [];
     SnowpackConfig.plugins := [Specifier "@snowpack/plugin-vue"] |}.

Definition noScripts : SnowpackConfig.t :=
  {| SnowpackConfig.scripts := []; SnowpackConfig.plugins := [] |}.

(** Scripts of every kind, with two shell commands for [css]. *)
Definition mixedScripts : SnowpackConfig.t :=
  {| SnowpackConfig.scripts :=
       [("run:lint", "eslint ."); ("build:css", "postcss");
        ("mount:public", "mount public --to /"); ("run:tsc", "tsc --noEmit");
        ("build:js", "@snowpack/plugin-babel"); ("build:css,scss", "sass");
        ("bundle:*", "@snowpack/plugin-svelte"); ("start:dev", "nodemon")];
     SnowpackConfig.plugins := [] |}.

(** What [loadPlugins] returns for them under Node.js. *)
Definition mixedLoaded : Loaded.t :=
  {| Loaded.plugins := [scriptPlugin barePlugin "@snowpack/plugin-babel" ["js"]];
     Loaded.bundler := Some sveltePlugin;
     Loaded.runCommands :=
       [{| RunCmd.id := "run:lint"; RunCmd.cmd := "eslint ." |};
        {| RunCmd.id := "run:tsc"; RunCmd.cmd := "tsc --noEmit" |}];
     Loaded.buildCommands :=
       <["scss" := {| RunCmd.id := "build:css,scss"; RunCmd.cmd := "sass" |}]>
         (<["css" := {| RunCmd.id := "build:css,scss"; RunCmd.cmd := "sass" |}]> ∅);
     Loaded.mountedDirs :=
       [{| MountedDir.id := "mount:public"; MountedDir.fromDisk := "public/";
           MountedDir.toUrl := "/" |};
        {| MountedDir.id := "mount:web_modules";
           MountedDir.fromDisk := "/project/node_modules/.cache/snowpack/dev";
           MountedDir.toUrl := "/web_modules" |}] |}.

(** A script for [mount:web_modules]. *)
Definition ownWebModules : SnowpackConfig.t :=
  {| SnowpackConfig.scripts := [("mount:web_modules", "mount deps --to /modules")];
     SnowpackConfig.plugins := [] |}.

Definition ownWebModulesLoaded : Loaded.t :=
  {| Loaded.plugins := []; Loaded.bundler := None; Loaded.runCommands := [];
     Loaded.buildCommands := ∅;
     Loaded.mountedDirs :=
       [{| MountedDir.id := "mount:web_modules";
           MountedDir.fromDisk := "/project/node_modules/.cache/snowpack/dev/";
           MountedDir.toUrl := "/modules/" |}] |}.

(** A script plugin and two entries of [plugins]. *)
Definition scriptsAndPlugins : SnowpackConfig.t :=
  {| SnowpackConfig.scripts := [("build:js", "@snowpack/plugin-babel")];
     SnowpackConfig.plugins :=
       [Specifier "@snowpack/plugin-svelte"; WithOptions "@snowpack/plugin-vue" "{}"] |}.

Definition scriptsAndPluginsLoaded : Loaded.t :=
  {| Loaded.plugins :=
       [scriptPlugin barePlugin "@snowpack/plugin-babel" ["js"];
        with_name "@snowpack/plugin-svelte" sveltePlugin;
        with_name "@snowpack/plugin-vue" (with_input_output ["vue"] vuePlugin)];
     Loaded.bundler := None; Loaded.runCommands := [];
     Loaded.buildCommands := ∅;
     Loaded.mountedDirs := [webModulesMount node] |}.

(** Plugins for the pipeline: an array of inputs, one string, and
    inputs named like a member of [Object.prototype]. *)
Definition jsxPlugin : SnowpackPlugin.t :=
  {| SnowpackPlugin.name := Some "jsx";
     SnowpackPlugin.input := Some (ExtensionList [".js"; ".jsx"]);
     SnowpackPlugin.output := Some (ExtensionList [".js"]);
     SnowpackPlugin.defaultBuildScript := None;
     SnowpackPlugin.hooks := "build" |}.

Definition minifyPlugin : SnowpackPlugin.t :=
  {| SnowpackPlugin.name := Some "minify";
     SnowpackPlugin.input := Some (OneExtension ".js");
     SnowpackPlugin.output := Some (OneExtension ".js");
     SnowpackPlugin.defaultBuildScript := None;
     SnowpackPlugin.hooks := "transform" |}.

Definition constructorPlugin : SnowpackPlugin.t :=
  {| SnowpackPlugin.name := Some "odd";
     SnowpackPlugin.input := Some (OneExtension "constructor");
     SnowpackPlugin.output := Some (OneExtension ".js");
     SnowpackPlugin.defaultBuildScript := None;
     SnowpackPlugin.hooks := "build" |}.

Definition constructorListPlugin : SnowpackPlugin.t :=
  {| SnowpackPlugin.name := Some "odd";
     SnowpackPlugin.input := Some (ExtensionList [".js"; "constructor"]);
     SnowpackPlugin.output := Some (ExtensionList [".js"]);
     SnowpackPlugin.defaultBuildScript := None;
     SnowpackPlugin.hooks := "build" |}.

(** A plugin that declares an empty array of inputs, and a host on
    which it is installed and the global [name] is falsy. *)
Definition emptyInputPlugin : SnowpackPlugin.t :=
  {| SnowpackPlugin.name := Some "empty";
     SnowpackPlugin.input := Some (ExtensionList []);
     SnowpackPlugin.output := Some (ExtensionList []);
     SnowpackPlugin.defaultBuildScript := None;
     SnowpackPlugin.hooks := "build" |}.

Definition withEmptyInput : Host :=
  {| requirePlugin := λ _ specifier _,
       if String.eqb specifier "snowpack-plugin-empty" then Some emptyInputPlugin
       else installed specifier;
     yargs := parseArgs;
     DEV_DEPENDENCIES_DIR := "/project/node_modules/.cache/snowpack/dev";
     global_name := Some false |}.

Definition emptyInputPlugins : SnowpackConfig.t :=
  {| SnowpackConfig.scripts := [];
     SnowpackConfig.plugins := [Specifier "snowpack-plugin-empty"] |}.

(** Two script plugins around a run command, and an entry of [plugins];
    what [loadPlugins] returns for them where the global [name] is
    falsy, field by field. *)
Definition twoScriptPlugins : SnowpackConfig.t :=
  {| SnowpackConfig.scripts :=
       [("build:js,jsx", "@snowpack/plugin-babel"); ("run:lint", "eslint .");
        ("build:vue", "@snowpack/plugin-vue")];
     SnowpackConfig.plugins := [Specifier "@snowpack/plugin-svelte"] |}.

Definition babelJsJsx : SnowpackPlugin.t :=
  {| SnowpackPlugin.name := Some "@snowpack/plugin-babel";
     SnowpackPlugin.input := Some (ExtensionList ["js"; "jsx"]);
     SnowpackPlugin.output := Some (ExtensionList ["js"; "jsx"]);
     SnowpackPlugin.defaultBuildScript := None;
     SnowpackPlugin.hooks := "build" |}.

Definition babelJs : SnowpackPlugin.t :=
  {| SnowpackPlugin.name := Some "@snowpack/plugin-babel";
     SnowpackPlugin.input := Some (ExtensionList ["js"]);
     SnowpackPlugin.output := Some (ExtensionList ["js"]);
     SnowpackPlugin.defaultBuildScript := None;
     SnowpackPlugin.hooks := "build" |}.

Definition vueBySpecifier : SnowpackPlugin.t :=
  {| SnowpackPlugin.name := Some "@snowpack/plugin-vue";
     SnowpackPlugin.input := Some (ExtensionList ["vue"]);
     SnowpackPlugin.output := Some (ExtensionList ["vue"]);
     SnowpackPlugin.defaultBuildScript := Some "build:vue";
     SnowpackPlugin.hooks := "build" |}.

Definition svelteBySpecifier : SnowpackPlugin.t :=
  {| SnowpackPlugin.name := Some "@snowpack/plugin-svelte";
     SnowpackPlugin.input := Some (ExtensionList [".svelte"]);
     SnowpackPlugin.output := Some (ExtensionList [".js"; ".css"]);
     SnowpackPlugin.defaultBuildScript := None;
     SnowpackPlugin.hooks := "build" |}.

Definition defaultMount : MountedDir.t :=
  {| MountedDir.id := "mount:web_modules";
     MountedDir.fromDisk := "/project/node_modules/.cache/snowpack/dev";
     MountedDir.toUrl := "/web_modules" |}.

Definition twoScriptPluginsLoaded : Loaded.t :=
  {| Loaded.plugins := [babelJsJsx; vueBySpecifier; svelteBySpecifier];
     Loaded.bundler := None;
     Loaded.runCommands := [{| RunCmd.id := "run:lint"; RunCmd.cmd := "eslint ." |}];
     Loaded.buildCommands := ∅;
     Loaded.mountedDirs := [defaultMount] |}.

(** The result for [scriptsAndPlugins] where the global [name] is
    falsy, field by field. *)
Definition scriptsAndPluginsFields : Loaded.t :=
  {| Loaded.plugins := [babelJs; svelteBySpecifier; vueBySpecifier];
     Loaded.bundler := None; Loaded.runCommands := [];
     Loaded.buildCommands := ∅;
     Loaded.mountedDirs := [defaultMount] |}.

End Fixture.

(** ** Vocabulary of the properties *)

(** A string that lower-casing leaves alone. *)
Definition lowered (s : string) : Prop := JsString.toLowerCase s = s.

(** A plugin directive: a key that [parseScript] classifies as [build]
    with a command that [loadPluginFromScript] loads. *)
Definition pluginDirective (h : Host) (config : SnowpackConfig.t)
    (entry : string * string) : Prop :=
  (∃ parsed, parseScript entry.1 = Ok parsed ∧ scriptType parsed = "build")
  ∧ is_Some (loadPluginFromScript h config entry.2).

(** The plugin has a name: [plugin.name] is a non-empty string. *)
Definition has_name (plugin : SnowpackPlugin.t) : Prop :=
  truthy_string (SnowpackPlugin.name plugin) = true.

(** The plugin has a non-empty set of input extensions. *)
Definition has_input (plugin : SnowpackPlugin.t) : Prop :=
  match SnowpackPlugin.input plugin with
  | Some (ExtensionList exts) => exts ≠ []
  | Some (OneExtension _) => True
  | None => False
  end.

(** The plugin list of a run that returns. *)
Definition returnedPlugins (o : Outcome Loaded.t) : option (list SnowpackPlugin.t) :=
  match o with
  | Ok r => Some (Loaded.plugins r)
  | _ => None
  end.

(** The chain that [plugins] adds to a chain [chain] of the pipeline:
    [None] stands for a key that the pipeline does not have. *)
Definition extend_chain (chain : option (list SnowpackPlugin.t))
    (plugins : list SnowpackPlugin.t) : option (list SnowpackPlugin.t) :=
  match plugins with
  | [] => chain
  | _ => Some (default [] chain ++ plugins)
  end.

(** One copy of [plugin] for each time [ext] occurs among its inputs. *)
Definition copies (ext : string) (plugin : SnowpackPlugin.t) : list SnowpackPlugin.t :=
  map (λ _, plugin) (filter (λ e, e = ext) (inputs plugin)).

(** [s.includes(c)] for a character [c]. *)
Fixpoint includes (c : ascii) (s : string) : bool :=
  match s with
  | EmptyString => false
  | String d r => Ascii.eqb d c || includes c r
  end.

(** The script type and the extensions of a key, for keys that
    [parseScript] classifies. *)
Definition scriptTypeOf (target : string) : option string :=
  match parseScript target with
  | Ok parsed => Some (scriptType parsed)
  | _ => None
  end.

Definition extensionsOf (target : string) : list string :=
  match parseScript target with
  | Ok parsed => extensions parsed
  | _ => []
  end.

(** [{id: target, cmd}] *)
Definition runCmdOf (entry : string * string) : RunCmd.t :=
  {| RunCmd.id := entry.1; RunCmd.cmd := entry.2 |}.

(** A build directive whose command does not load as a plugin and whose
    key lists [ext]: the command is kept as a shell command for [ext]. *)
Definition shellBuildFor (h : Host) (config : SnowpackConfig.t) (ext : string)
    (entry : string * string) : Prop :=
  scriptTypeOf entry.1 = Some "build"
  ∧ loadPluginFromScript h config entry.2 = None
  ∧ ext ∈ extensionsOf entry.1.

(** The entry of [scriptPlugins] that a directive gives, if it is a
    build directive whose command loads as a plugin. *)
Definition scriptPluginOf (h : Host) (config : SnowpackConfig.t)
    (entry : string * string) : option (string * SnowpackPlugin.t) :=
  if decide (scriptTypeOf entry.1 = Some "build") then
    plugin ← loadPluginFromScript h config entry.2;
    Some (entry.2, scriptPlugin plugin entry.2 (extensionsOf entry.1))
  else None.

(** The mount that a directive gives, if it is a mount directive in the
    mount format. *)
Definition mountOf (h : Host) (entry : string * string) : option MountedDir.t :=
  if decide (scriptTypeOf entry.1 = Some "mount") then
    match parseMount h entry.1 entry.2 with
    | Ok dir => Some dir
    | _ => None
    end
  else None.

(** Line 130: the bundler gets the command as its name when it has none. *)
Definition namedBundler (bundlerName : string) (bundler : SnowpackPlugin.t)
  : SnowpackPlugin.t :=
  if truthy_string (SnowpackPlugin.name bundler) then bundler
  else with_name bundlerName bundler.

(** The bundler that a bundle directive gives. *)
Definition bundlerOf (h : Host) (config : SnowpackConfig.t)
    (entry : string * string) : option SnowpackPlugin.t :=
  namedBundler entry.2 <$> loadPluginFromScript h config entry.2.

(** Lines 162-171 on a loaded plugin: it is kept when it has an input,
    gets the extensions of its [defaultBuildScript] when it has that
    script and no input, and is refused otherwise ([None]: the run ends
    there, in [handleError] or on the [TypeError] of [parseScript]). *)
Definition backfilled (plugin : SnowpackPlugin.t) : option SnowpackPlugin.t :=
  if truthy_extensions (SnowpackPlugin.input plugin) then Some plugin
  else if truthy_string (SnowpackPlugin.defaultBuildScript plugin) then
    match parseScript (default "" (SnowpackPlugin.defaultBuildScript plugin)) with
    | Ok parsed => Some (with_input_output (extensions parsed) plugin)
    | _ => None
    end
  else None.

(** Lines 173-175 where the global [name] has the truthiness [b]. *)
Definition renamed (b : bool) (pluginName : string) (plugin : SnowpackPlugin.t)
  : SnowpackPlugin.t :=
  if b then plugin else with_name pluginName plugin.

(** The plugin that an entry of [config.plugins] adds to the list, on a
    host whose global [name] has the truthiness [b]. *)
Definition mergedOf (h : Host) (config : SnowpackConfig.t) (b : bool)
    (ref : PluginRef) : option SnowpackPlugin.t :=
  loaded ← requirePlugin h config (pluginName_of ref) (Some (pluginOptions_of ref));
  plugin ← backfilled loaded;
  Some (renamed b (pluginName_of ref) plugin).

(** The chain of an extension, empty when the pipeline has no such key. *)
Definition chainOf (pipeline : gmap string (list SnowpackPlugin.t)) (ext : string)
  : list SnowpackPlugin.t :=
  default [] (pipeline !! ext).

(** The plugin takes the extension: [ext] is an element of the array
    [plugin.input], or is the string [plugin.input]; for a plugin
    without [input] it is the property key ["undefined"]. *)
Definition takes (plugin : SnowpackPlugin.t) (ext : string) : Prop :=
  match SnowpackPlugin.input plugin with
  | Some (ExtensionList exts) => ext ∈ exts
  | Some (OneExtension e) => e = ext
  | None => ext = "undefined"
  end.

#[global] Instance takes_dec plugin ext : Decision (takes plugin ext).
Proof.
  unfold takes. destruct (SnowpackPlugin.input plugin) as [[e|exts]|]; apply _.
Defined.

(** The input of the plugin is a set: an array lists no extension twice. *)
Definition inputSet (plugin : SnowpackPlugin.t) : Prop :=
  match SnowpackPlugin.input plugin with
  | Some (ExtensionList exts) => NoDup exts
  | _ => True
  end.

(** No extension that the plugin takes is a member inherited from
    [Object.prototype]. *)
Definition ownExtensions (plugin : SnowpackPlugin.t) : Prop :=
  ∀ ext, takes plugin ext → inherited ext = false.

(** The pipeline that a call returns. *)
Definition returnedPipeline (o : Outcome (gmap string (list SnowpackPlugin.t)))
  : option (gmap string (list SnowpackPlugin.t)) :=
  match o with
  | Ok pipeline => Some pipeline
  | _ => None
  end.

(** A build directive whose command loads as a plugin. *)
Definition isPluginDirective (h : Host) (config : SnowpackConfig.t)
    (entry : string * string) : Prop :=
  scriptTypeOf entry.1 = Some "build"
  ∧ is_Some (requirePlugin h config entry.2 None).

(** [plugin] is what the directive [entry] puts in the plugin list: the
    object that the command loads, with the command as [name] and the
    extensions of the key as [input] and [output]. *)
Definition scriptDerived (h : Host) (config : SnowpackConfig.t)
    (entry : string * string) (plugin : SnowpackPlugin.t) : Prop :=
  ∃ parsed loaded,
    parseScript entry.1 = Ok parsed
    ∧ requirePlugin h config entry.2 None = Some loaded
    ∧ SnowpackPlugin.name plugin = Some entry.2
    ∧ SnowpackPlugin.input plugin = Some (ExtensionList (extensions parsed))
    ∧ SnowpackPlugin.output plugin = Some (ExtensionList (extensions parsed))
    ∧ SnowpackPlugin.defaultBuildScript plugin = SnowpackPlugin.defaultBuildScript loaded
    ∧ SnowpackPlugin.hooks plugin = SnowpackPlugin.hooks loaded.

(** [plugin] is what the entry [ref] of [config.plugins] puts in the
    plugin list on a host whose global [name] has the truthiness [b]:
    the object that the specifier loads with the options, with its own
    [input] and [output] when its [input] is truthy and with the
    extensions of its [defaultBuildScript] as both otherwise, and with
    the specifier as [name] when [b] is false. *)
Definition explicitlyMerged (h : Host) (config : SnowpackConfig.t) (b : bool)
    (ref : PluginRef) (plugin : SnowpackPlugin.t) : Prop :=
  ∃ specifier options loaded,
    match ref with
    | Specifier n => specifier = n ∧ options = "{}"
    | WithOptions n o => specifier = n ∧ options = o
    end
    ∧ requirePlugin h config specifier (Some options) = Some loaded
    ∧ (truthy_extensions (SnowpackPlugin.input loaded) = true
       ∧ SnowpackPlugin.input plugin = SnowpackPlugin.input loaded
       ∧ SnowpackPlugin.output plugin = SnowpackPlugin.output loaded
       ∨ truthy_extensions (SnowpackPlugin.input loaded) = false
         ∧ ∃ script parsed,
             SnowpackPlugin.defaultBuildScript loaded = Some script
             ∧ parseScript script = Ok parsed
             ∧ SnowpackPlugin.input plugin = Some (ExtensionList (extensions parsed))
             ∧ SnowpackPlugin.output plugin = Some (ExtensionList (extensions parsed)))
    ∧ SnowpackPlugin.name plugin
      = (if b then SnowpackPlugin.name loaded else Some specifier)
    ∧ SnowpackPlugin.defaultBuildScript plugin = SnowpackPlugin.defaultBuildScript loaded
    ∧ SnowpackPlugin.hooks plugin = SnowpackPlugin.hooks loaded.

(** A pipeline without an own property named like an inherited member:
    every pipeline that the loops build from the empty object. *)
Definition clean (pipeline : gmap string (list SnowpackPlugin.t)) : Prop :=
  ∀ key, inherited key = true → pipeline !! key = None.

(** The plugin that the entry [ref] of [config.plugins] loads declares
    an empty array as its [input]. *)
Definition declaresEmptyInput (h : Host) (config : SnowpackConfig.t)
    (ref : PluginRef) : Prop :=
  ∃ specifier options loaded,
    match ref with
    | Specifier n => specifier = n ∧ options = "{}"
    | WithOptions n o => specifier = n ∧ options = o
    end
    ∧ requirePlugin h config specifier (Some options) = Some loaded
    ∧ SnowpackPlugin.input loaded = Some (ExtensionList []).

(** * Properties *)

(** ** Strings *)

Section Strings.
Import JsString.

Lemma lower_char_idemp c : lower_char (lower_char c) = lower_char c.
Proof. destruct c as [[] [] [] [] [] [] [] []]; reflexivity. Qed.

Lemma toLowerCase_idemp s : toLowerCase (toLowerCase s) = toLowerCase s.
Proof. induction s as [|c s IH]; simpl; [done|]. by rewrite lower_char_idemp, IH. Qed.

Lemma lowered_cons c s : lowered (String c s) ↔ lower_char c = c ∧ lowered s.
Proof. unfold lowered; simpl. split; [intros [= ? ?]; done | intros [-> ->]; done]. Qed.

Lemma split_nonempty sep s : split sep s ≠ [].
Proof.
  induction s as [|c s IH]; simpl; [done|].
  destruct (Ascii.eqb c sep); [done|]. by destruct (split sep s).
Qed.

Lemma lowered_split sep s : lowered s → Forall lowered (split sep s).
Proof.
  induction s as [|c s IH]; simpl; intros H.
  - by constructor.
  - apply lowered_cons in H as [Hc Hs]. specialize (IH Hs).
    destruct (Ascii.eqb c sep).
    + constructor; [done | exact IH].
    + destruct (split sep s) as [|w ws]; simpl.
      * constructor; [by apply lowered_cons | constructor].
      * inversion IH; subst. constructor; [by apply lowered_cons | done].
Qed.

Lemma lowered_trimStart s : lowered s → lowered (trimStart s).
Proof.
  induction s as [|c s IH]; simpl; [done|]. intros H.
  destruct (is_space c); [|done]. apply IH. by apply lowered_cons in H as [_ ?].
Qed.

Lemma lowered_trimEnd s : lowered s → lowered (trimEnd s).
Proof.
  induction s as [|c s IH]; simpl; [done|]. intros H.
  apply lowered_cons in H as [Hc Hs]. specialize (IH Hs).
  destruct (trimEnd s).
  - destruct (is_space c); [done | by apply lowered_cons].
  - by apply lowered_cons.
Qed.

Lemma lowered_trim s : lowered s → lowered (trim s).
Proof. intros. by apply lowered_trimEnd, lowered_trimStart. Qed.

Lemma unique_subset l x : x ∈ unique l → x ∈ l.
Proof.
  revert x. induction l as [|y l IH]; simpl; intros x; [done|].
  rewrite elem_of_cons, list_elem_of_filter. intros [->|[_ ?]]; [left | right; auto].
Qed.

Lemma unique_NoDup l : NoDup (unique l).
Proof.
  induction l as [|y l IH]; simpl; [constructor|].
  constructor; [|by apply NoDup_filter].
  rewrite list_elem_of_filter. by intros [? _].
Qed.

Lemma unique_nonempty l : l ≠ [] → unique l ≠ [].
Proof. by destruct l. Qed.

End Strings.

(** ** [parseScript] *)

(** The template adds a dot in front of [ext] and [replace] takes it off
    again: what remains of the callback is [trim]. *)
Lemma normalizeExtension_trim ext : normalizeExtension ext = JsString.trim ext.
Proof. reflexivity. Qed.

Lemma parseScript_extensions_nonempty script parsed :
  parseScript script = Ok parsed → extensions parsed ≠ [].
Proof.
  unfold parseScript.
  destruct (JsString.split ":" (JsString.toLowerCase script)) as [|t [|e rest]]; try done.
  intros [= <-]; simpl. apply unique_nonempty.
  pose proof (split_nonempty "," e). by destruct (JsString.split "," e).
Qed.

(** C2: on the key ["build:js,jsx"] the classifier returns the script
    type ["build"] and the extensions ["js"] and ["jsx"]: no dot is put
    in front of an extension, for the callback of [map] is [trim] on
    every token. *)
Theorem parseScript_adds_no_dot :
  parseScript "build:js,jsx"
    = Ok {| scriptType := "build"; extensions := ["js"; "jsx"] |}
  ∧ ∀ ext, normalizeExtension ext = JsString.trim ext.
Proof. split; [reflexivity | apply normalizeExtension_trim]. Qed.

(** C6, as the specification states it, fails on ["build:js,JS"]: the
    two tokens give the one extension ["js"], and ["JS"] is not kept. *)
Lemma parseScript_case_counterexample :
  ∃ parsed, parseScript "build:js,JS" = Ok parsed
            ∧ extensions parsed = ["js"]
            ∧ "JS" ∉ extensions parsed.
Proof.
  eexists; split; [reflexivity|]. split; [reflexivity|].
  simpl. rewrite list_elem_of_singleton. discriminate.
Qed.

(** C6, amended: the classifier lower-cases the whole key, the extension
    tokens as well as the script type.  A key and its lower-cased form
    are classified alike, every extension returned is in lower case, and
    no two distinct extensions of the result differ in case only. *)
Theorem parseScript_lower_cases_key script parsed :
  parseScript script = Ok parsed →
  parseScript (JsString.toLowerCase script) = Ok parsed
  ∧ lowered (scriptType parsed)
  ∧ Forall lowered (extensions parsed)
  ∧ ∀ e1 e2, e1 ∈ extensions parsed → e2 ∈ extensions parsed →
             JsString.toLowerCase e1 = JsString.toLowerCase e2 → e1 = e2.
Proof.
  intros H.
  assert (Hlow : lowered (scriptType parsed) ∧ Forall lowered (extensions parsed)).
  { unfold parseScript in H.
    pose proof (lowered_split ":" _ (toLowerCase_idemp script)) as Hsplit.
    destruct (JsString.split ":" (JsString.toLowerCase script)) as [|t [|e rest]]; try done.
    injection H as <-; simpl.
    inversion Hsplit as [|? ? Ht Hrest]; subst. inversion Hrest as [|? ? He _]; subst.
    split; [done|]. apply Forall_forall. intros x Hx%unique_subset.
    apply list_elem_of_fmap in Hx as (tok & -> & Htok).
    rewrite normalizeExtension_trim. apply lowered_trim.
    pose proof (lowered_split "," _ He) as Hall.
    rewrite Forall_forall in Hall. by apply Hall. }
  destruct Hlow as [Ht He]. split; [|split; [done|split; [done|]]].
  - unfold parseScript in *. by rewrite toLowerCase_idemp.
  - intros e1 e2 H1 H2. rewrite Forall_forall in He.
    rewrite (He _ H1), (He _ H2). done.
Qed.

Lemma parseScript_lower_cases_key_witness :
  parseScript (JsString.toLowerCase "Build:js,JS")
    = Ok {| scriptType := "build"; extensions := ["js"] |}.
Proof.
  exact (proj1 (parseScript_lower_cases_key "Build:js,JS"
                  {| scriptType := "build"; extensions := ["js"] |} eq_refl)).
Defined.

(** ** Sequencing and loops *)

Lemma bind_Ok {A B} (m : Outcome A) (k : A → Outcome B) (b : B) :
  m ≫= k = Ok b → ∃ a, m = Ok a ∧ k a = Ok b.
Proof. destruct m as [a| |]; simpl; [eauto | done | done]. Qed.

Lemma forEach_cons {S A} (step : S → A → Outcome S) st a l :
  forEach step st (a :: l) = step st a ≫= λ st', forEach step st' l.
Proof. reflexivity. Qed.

Lemma forEach_app {S A} (step : S → A → Outcome S) st l1 l2 :
  forEach step st (l1 ++ l2) = forEach step st l1 ≫= λ st', forEach step st' l2.
Proof.
  revert st. induction l1 as [|a l1 IH]; intros st; simpl; [done|].
  destruct (step st a) as [s| |]; simpl; [apply IH | done | done].
Qed.

(** A loop that ends normally has run every call, in order: a property
    of the captured variables and of the elements seen so far that each
    call carries one element further holds at the end for the whole
    list. *)
Lemma forEach_invariant {S A} (P : S → list A → Prop)
    (step : S → A → Outcome S) st0 l st' :
  P st0 [] →
  (∀ st seen a st1, P st seen → step st a = Ok st1 → P st1 (seen ++ [a])) →
  forEach step st0 l = Ok st' → P st' l.
Proof.
  intros H0 Hstep.
  enough (∀ seen st, P st seen → forEach step st l = Ok st' → P st' (seen ++ l))
    as Hgen by exact (Hgen [] st0 H0).
  induction l as [|a l IH]; intros seen st HP; simpl.
  - intros [= <-]. by rewrite app_nil_r.
  - intros (st1 & H1 & H2)%bind_Ok.
    replace (seen ++ a :: l) with ((seen ++ [a]) ++ l) by (by rewrite <- app_assoc).
    eapply IH; [|exact H2]. by eapply Hstep.
Qed.

Lemma filter_none {A} (P : A → Prop) `{∀ x, Decision (P x)} (l : list A) :
  Forall (λ x, ¬ P x) l → filter P l = [].
Proof.
  induction 1 as [|x l Hx _ IH]; [done|]. by rewrite filter_cons_False.
Qed.

(** ** Objects given by their entries *)

Lemma property_set_same {V} key (v : V) o : property key (set_property key v o) = Some v.
Proof.
  induction o as [|[k w] o IH]; simpl.
  - by rewrite String.eqb_refl.
  - destruct (String.eqb k key) eqn:E; simpl; by rewrite E.
Qed.

Lemma property_set_other {V} key key' (v : V) o :
  key ≠ key' → property key' (set_property key v o) = property key' o.
Proof.
  intros Hne. induction o as [|[k w] o IH]; simpl.
  - destruct (String.eqb_spec key key'); done.
  - destruct (String.eqb_spec k key) as [->|]; simpl.
    + destruct (String.eqb_spec key key'); done.
    + by rewrite IH.
Qed.

Lemma set_property_new {V} key (v : V) o :
  property key o = None → set_property key v o = o ++ [(key, v)].
Proof.
  induction o as [|[k w] o IH]; simpl; [done|].
  destruct (String.eqb k key); [done|]. intros H. by rewrite IH.
Qed.

Lemma property_None_keys {V} key (o : list (string * V)) :
  key ∉ map fst o → property key o = None.
Proof.
  induction o as [|[k w] o IH]; simpl; [done|].
  rewrite not_elem_of_cons. intros [Hne Hnot].
  destruct (String.eqb_spec k key); [congruence | auto].
Qed.

(** ** [loadPlugins]: what one call of each callback does *)

Section Callbacks.
Context (h : Host) (config : SnowpackConfig.t).

(** The branch of line 69 always throws: whatever [loadPlugins[pluginName]]
    is, it has no iterable [input]. *)
Lemma merge_branch_throws pluginName extensions (st : Locals.t) :
  ('(input, output) ← destructure_input_output (loadPlugins_member pluginName);
   _ ← spread_unique input extensions;
   _ ← spread_unique output extensions;
   Ok st) = Throw TypeError.
Proof. by destruct (loadPlugins_member pluginName). Qed.

(** A build directive naming a plugin that an earlier build directive
    has registered ends the run with a [TypeError]. *)
Lemma scriptStep_registered_throws st target cmd parsed plugin :
  parseScript target = Ok parsed →
  scriptType parsed = "build" →
  loadPluginFromScript h config cmd = Some plugin →
  is_Some (property cmd (Locals.scriptPlugins st)) →
  scriptStep h config st (target, cmd) = Throw TypeError.
Proof.
  intros Hp Ht Hl [p Hreg]. unfold scriptStep. rewrite Hp; simpl.
  rewrite Ht; simpl. rewrite Hl, Hreg. apply merge_branch_throws.
Qed.

(** What a call that returns has changed. *)
Lemma scriptStep_Ok st target cmd st' :
  scriptStep h config st (target, cmd) = Ok st' →
  Locals.plugins st' = Locals.plugins st
  ∧ (Locals.mountedDirs st' = Locals.mountedDirs st
     ∨ ∃ dir, Locals.mountedDirs st' = Locals.mountedDirs st ++ [dir]
              ∧ MountedDir.id dir = target)
  ∧ (Locals.scriptPlugins st' = Locals.scriptPlugins st
     ∨ ∃ plugin parsed,
         parseScript target = Ok parsed
         ∧ loadPluginFromScript h config cmd = Some plugin
         ∧ property cmd (Locals.scriptPlugins st) = None
         ∧ Locals.scriptPlugins st'
           = Locals.scriptPlugins st ++ [(cmd, scriptPlugin plugin cmd (extensions parsed))]).
Proof.
  unfold scriptStep. intros (parsed & Hp & H)%bind_Ok.
  destruct (String.eqb (scriptType parsed) "run").
  { injection H as <-. simpl. auto. }
  destruct (String.eqb (scriptType parsed) "build").
  { destruct (loadPluginFromScript h config cmd) as [plugin|] eqn:Hl.
    - destruct (property cmd (Locals.scriptPlugins st)) eqn:Hreg.
      + by rewrite merge_branch_throws in H.
      + injection H as <-. simpl. split; [done|]. split; [by left|].
        right. exists plugin, parsed. by rewrite set_property_new.
    - injection H as <-. simpl. auto. }
  destruct (String.eqb (scriptType parsed) "mount").
  { apply bind_Ok in H as (dir & Hd & [= <-]). simpl.
    split; [done|]. split; [|by left]. right. exists dir. split; [done|].
    unfold parseMount in Hd.
    repeat match type of Hd with (if ?c then _ else _) = _ => destruct c; try done end.
    by injection Hd as <-. }
  destruct (String.eqb (scriptType parsed) "bundle").
  { destruct (loadPluginFromScript h config cmd); [|done].
    injection H as <-. simpl. auto. }
  injection H as <-. auto.
Qed.

(** A build directive whose command loads as a plugin, when its call
    returns, has registered the plugin under its specifier. *)
Lemma scriptStep_registers st target cmd parsed plugin st' :
  parseScript target = Ok parsed →
  scriptType parsed = "build" →
  loadPluginFromScript h config cmd = Some plugin →
  scriptStep h config st (target, cmd) = Ok st' →
  is_Some (property cmd (Locals.scriptPlugins st')).
Proof.
  intros Hp Ht Hl. unfold scriptStep. rewrite Hp; simpl. rewrite Ht; simpl. rewrite Hl.
  destruct (property cmd (Locals.scriptPlugins st)) eqn:Hreg.
  - by rewrite merge_branch_throws.
  - intros [= <-]. simpl. rewrite property_set_same. eauto.
Qed.

Lemma property_app_Some {V} key (o1 o2 : list (string * V)) :
  is_Some (property key o1) → is_Some (property key (o1 ++ o2)).
Proof.
  induction o1 as [|[k w] o1 IH]; simpl; [by intros [? ?]|].
  destruct (String.eqb k key); auto.
Qed.

(** No call removes a registered plugin. *)
Lemma scriptStep_keeps_registered st entry st' key :
  scriptStep h config st entry = Ok st' →
  is_Some (property key (Locals.scriptPlugins st)) →
  is_Some (property key (Locals.scriptPlugins st')).
Proof.
  destruct entry as [target cmd].
  intros (_ & _ & [-> | (? & ? & _ & _ & _ & ->)])%scriptStep_Ok; [done|].
  apply property_app_Some.
Qed.

(** What a call of the second callback that returns has changed. *)
Lemma pluginStep_Ok st ref st' :
  pluginStep h config st ref = Ok st' →
  Locals.mountedDirs st' = Locals.mountedDirs st
  ∧ Locals.scriptPlugins st' = Locals.scriptPlugins st
  ∧ property (pluginName_of ref) (Locals.scriptPlugins st) = None
  ∧ global_name h ≠ None.
Proof.
  unfold pluginStep.
  destruct (property (pluginName_of ref) (Locals.scriptPlugins st)); [done|].
  intros (plugin & _ & H)%bind_Ok.
  destruct (_ && _) in H; [done|].
  apply bind_Ok in H as (plugin1 & _ & H).
  apply bind_Ok in H as (plugin2 & Hname & [= <-]). simpl.
  repeat split. by destruct (global_name h).
Qed.

End Callbacks.

(** ** [loadPlugins]: the run as a whole *)

Section Resolution.
Context (h : Host) (config : SnowpackConfig.t).

Lemma loadScripts_Ok st :
  loadScripts h config = Ok st →
  ∃ st0,
    forEach (scriptStep h config) Locals.initial (SnowpackConfig.scripts config) = Ok st0
    ∧ Locals.scriptPlugins st = Locals.scriptPlugins st0
    ∧ Locals.plugins st = Locals.plugins st0 ++ map snd (Locals.scriptPlugins st0)
    ∧ Locals.mountedDirs st
      = if negb (truthy_string (property "mount:web_modules" (SnowpackConfig.scripts config)))
        then Locals.mountedDirs st0 ++ [webModulesMount h]
        else Locals.mountedDirs st0.
Proof.
  unfold loadScripts. intros (st0 & H0 & [= <-])%bind_Ok. exists st0.
  split; [done|]. by destruct (negb _).
Qed.

Lemma loadPlugins_Ok r :
  loadPlugins h config = Ok r →
  ∃ st st',
    loadScripts h config = Ok st
    ∧ forEach (pluginStep h config) st (SnowpackConfig.plugins config) = Ok st'
    ∧ Loaded.plugins r = Locals.plugins st'
    ∧ Loaded.mountedDirs r = Locals.mountedDirs st'.
Proof.
  unfold loadPlugins. intros (st & Hs & H)%bind_Ok.
  apply bind_Ok in H as (st' & Hp & [= <-]). by exists st, st'.
Qed.

(** The scripts loop registers every plugin directive it has run. *)
Lemma scripts_loop_registers l st target cmd :
  forEach (scriptStep h config) Locals.initial l = Ok st →
  (target, cmd) ∈ l → pluginDirective h config (target, cmd) →
  is_Some (property cmd (Locals.scriptPlugins st)).
Proof.
  intros Hrun Hin Hdir. revert Hin.
  pattern st, l. eapply forEach_invariant; [| |exact Hrun].
  - intros []%elem_of_nil.
  - intros s seen a s1 IH Hstep [Hseen | Heq%list_elem_of_singleton]%elem_of_app.
    + eapply scriptStep_keeps_registered; eauto.
    + subst a. destruct Hdir as [(parsed & Hp & Ht) [plugin Hl]].
      eapply scriptStep_registers; eauto.
Qed.

(** The second loop leaves the mounts and the registered script plugins
    as they are. *)
Lemma plugins_loop_keeps l st st' :
  forEach (pluginStep h config) st l = Ok st' →
  Locals.mountedDirs st' = Locals.mountedDirs st
  ∧ Locals.scriptPlugins st' = Locals.scriptPlugins st.
Proof.
  intros Hrun. pattern st', l. eapply forEach_invariant; [| |exact Hrun]; [done|].
  intros s seen a s1 [IH1 IH2] (H1 & H2 & _)%pluginStep_Ok. split; congruence.
Qed.

(** Where the global object has no [name], the second loop returns only
    when it has nothing to do. *)
Lemma plugins_loop_node l st st' :
  global_name h = None →
  forEach (pluginStep h config) st l = Ok st' → l = [] ∧ st' = st.
Proof.
  intros Hnode. destruct l as [|ref l].
  - by intros [= <-].
  - rewrite forEach_cons. intros (s & Hs%pluginStep_Ok & _)%bind_Ok. by destruct Hs as (_ & _ & _ & ?).
Qed.

(** Once the plugin list names a registered script plugin, the second
    loop does not return. *)
Lemma plugins_loop_conflict l st st' p :
  is_Some (property p (Locals.scriptPlugins st)) →
  p ∈ map pluginName_of l →
  forEach (pluginStep h config) st l ≠ Ok st'.
Proof.
  intros Hreg (ref & -> & Hin)%list_elem_of_fmap.
  apply list_elem_of_split in Hin as (pre & post & ->).
  rewrite forEach_app. intros (s & Hpre & Hpost)%bind_Ok.
  apply plugins_loop_keeps in Hpre as [_ Hsame]. rewrite forEach_cons in Hpost.
  apply bind_Ok in Hpost as (s1 & (_ & _ & Hnone & _)%pluginStep_Ok & _).
  rewrite Hsame in Hnone. rewrite Hnone in Hreg. by destruct Hreg.
Qed.

End Resolution.

(** ** [loadPlugins]: the statements of the specification *)

(** C1: a configuration with two build directives whose commands load as
    the same plugin never gets a result, so no plugin entry with the
    union of the two extension sets is ever returned: the second
    directive takes the branch of line 69, which reads
    [loadPlugins[pluginName]] and throws. *)
Theorem duplicate_plugin_directive_never_returns h config
    pre mid post target1 target2 pluginName :
  SnowpackConfig.scripts config
    = pre ++ (target1, pluginName) :: mid ++ (target2, pluginName) :: post →
  pluginDirective h config (target1, pluginName) →
  pluginDirective h config (target2, pluginName) →
  returnedPlugins (loadPlugins h config) = None.
Proof.
  intros Hscripts Hd1 Hd2.
  destruct (loadPlugins h config) as [r| |] eqn:Hr; [exfalso | done | done].
  apply loadPlugins_Ok in Hr as (st & _ & (st0 & Hrun & _)%loadScripts_Ok & _).
  rewrite Hscripts in Hrun.
  change (pre ++ (target1, pluginName) :: mid ++ (target2, pluginName) :: post)
    with (pre ++ [(target1, pluginName)] ++ mid ++ (target2, pluginName) :: post) in Hrun.
  rewrite !app_assoc, forEach_app in Hrun.
  apply bind_Ok in Hrun as (s & Hfirst & Hrest). rewrite forEach_cons in Hrest.
  apply bind_Ok in Hrest as (s' & Hstep & _).
  assert (Hreg : is_Some (property pluginName (Locals.scriptPlugins s))).
  { eapply scripts_loop_registers; [exact Hfirst | | exact Hd1].
    rewrite !elem_of_app, list_elem_of_singleton. auto. }
  destruct Hd2 as [(parsed & Hp & Ht) [plugin Hl]]. simpl in Hp, Hl.
  by rewrite (scriptStep_registered_throws h config s _ _ _ _ Hp Ht Hl Hreg) in Hstep.
Qed.

Lemma duplicate_plugin_directive_never_returns_witness :
  returnedPlugins (loadPlugins Fixture.node Fixture.twoBuildDirectives) = None.
Proof.
  apply (duplicate_plugin_directive_never_returns
           Fixture.node Fixture.twoBuildDirectives [] [] []
           "build:js" "build:jsx" "@snowpack/plugin-babel").
  - reflexivity.
  - split; [eexists; split; reflexivity | eexists; reflexivity].
  - split; [eexists; split; reflexivity | eexists; reflexivity].
Defined.

(** The exception of that run, and the run with the two extension lists
    under one key. *)
Example twoBuildDirectives_throw :
  loadPlugins Fixture.node Fixture.twoBuildDirectives = Throw TypeError.
Proof. reflexivity. Qed.

Example oneBuildDirective_plugins :
  returnedPlugins (loadPlugins Fixture.node Fixture.oneBuildDirective)
  = Some [scriptPlugin Fixture.barePlugin "@snowpack/plugin-babel" ["js"; "jsx"]].
Proof. reflexivity. Qed.

(** C5: when no script has the key [mount:web_modules], the returned
    mount list has exactly one entry with that id, the one of lines
    140-144: its [fromDisk] is [DEV_DEPENDENCIES_DIR] as it stands and
    its [toUrl] is ["/web_modules"], which does not end in a separator. *)
Theorem default_mount_without_trailing_separator h config r :
  "mount:web_modules" ∉ map fst (SnowpackConfig.scripts config) →
  loadPlugins h config = Ok r →
  filter (λ dir, MountedDir.id dir = "mount:web_modules") (Loaded.mountedDirs r)
    = [webModulesMount h]
  ∧ MountedDir.toUrl (webModulesMount h) = "/web_modules"
  ∧ JsString.ends_with "/" (MountedDir.toUrl (webModulesMount h)) = false.
Proof.
  intros Hkey (st & st' & Hs & Hp & _ & ->)%loadPlugins_Ok.
  split; [|by split].
  apply plugins_loop_keeps in Hp as [-> _].
  apply loadScripts_Ok in Hs as (st0 & Hrun & _ & _ & ->).
  rewrite (property_None_keys _ _ Hkey). simpl.
  assert (Hids : Forall (λ dir, MountedDir.id dir ∈ map fst (SnowpackConfig.scripts config))
                   (Locals.mountedDirs st0)).
  { pattern st0, (SnowpackConfig.scripts config).
    eapply forEach_invariant; [| |exact Hrun]; [constructor|].
    intros s seen [target cmd] s1 IH (_ & Hm & _)%scriptStep_Ok.
    rewrite map_app. simpl.
    assert (Forall (λ dir, MountedDir.id dir ∈ map fst seen ++ [target]) (Locals.mountedDirs s)).
    { eapply Forall_impl; [exact IH|]. intros dir ?. apply elem_of_app. by left. }
    destruct Hm as [-> | (dir & -> & Hid)]; [done|].
    apply Forall_app. split; [done|]. apply Forall_singleton.
    rewrite Hid. apply elem_of_app. right. by apply list_elem_of_singleton. }
  rewrite filter_app.
  replace (filter _ (Locals.mountedDirs st0)) with (@nil MountedDir.t).
  - reflexivity.
  - symmetry. apply filter_none.
    eapply Forall_impl; [exact Hids|]. simpl. intros dir Hin Heq. by rewrite Heq in Hin.
Qed.

Lemma default_mount_without_trailing_separator_witness :
  filter (λ dir, MountedDir.id dir = "mount:web_modules")
         [webModulesMount Fixture.node] = [webModulesMount Fixture.node]
  ∧ MountedDir.toUrl (webModulesMount Fixture.node) = "/web_modules"
  ∧ JsString.ends_with "/" (MountedDir.toUrl (webModulesMount Fixture.node)) = false.
Proof.
  refine (default_mount_without_trailing_separator Fixture.node Fixture.noScripts
            {| Loaded.plugins := []; Loaded.bundler := None; Loaded.runCommands := [];
               Loaded.buildCommands := ∅;
               Loaded.mountedDirs := [webModulesMount Fixture.node] |} _ eq_refl).
  simpl. apply not_elem_of_nil.
Defined.

(** C8, as the specification states it, fails on a configuration that
    declares a plugin by both mechanisms after a mount script that does
    not start with [mount]: the run ends on the mount script, with
    another error. *)
Lemma declared_twice_counterexample :
  ("build:js", "@snowpack/plugin-babel")
    ∈ SnowpackConfig.scripts Fixture.declaredTwiceAfterBadMount
  ∧ pluginDirective Fixture.node Fixture.declaredTwiceAfterBadMount
      ("build:js", "@snowpack/plugin-babel")
  ∧ "@snowpack/plugin-babel"
      ∈ map pluginName_of (SnowpackConfig.plugins Fixture.declaredTwiceAfterBadMount)
  ∧ loadPlugins Fixture.node Fixture.declaredTwiceAfterBadMount
      = Exit (MountCommandExpected "mount:public")
  ∧ loadPlugins Fixture.node Fixture.declaredTwiceAfterBadMount
      ≠ Exit (LoadedInBoth "@snowpack/plugin-babel").
Proof.
  split; [simpl; rewrite !elem_of_cons; auto|].
  split; [split; [eexists; split; reflexivity | eexists; reflexivity]|].
  split; [simpl; by apply list_elem_of_singleton|].
  split; [reflexivity | discriminate].
Qed.

(** C8, amended: a configuration that names the same specifier in a
    plugin directive of [scripts] and in [plugins] never gets a result;
    and when the scripts are run without error and so are the entries of
    [plugins] before the first one with that specifier, the run ends in
    [handleError] with the message "loaded in both" for it. *)
Theorem declared_twice_aborts h config target pluginName :
  (target, pluginName) ∈ SnowpackConfig.scripts config →
  pluginDirective h config (target, pluginName) →
  pluginName ∈ map pluginName_of (SnowpackConfig.plugins config) →
  (∀ r, loadPlugins h config ≠ Ok r)
  ∧ (∀ st pre ref post st',
       loadScripts h config = Ok st →
       SnowpackConfig.plugins config = pre ++ ref :: post →
       pluginName_of ref = pluginName →
       forEach (pluginStep h config) st pre = Ok st' →
       loadPlugins h config = Exit (LoadedInBoth pluginName)).
Proof.
  intros Hin Hdir Hplugins.
  assert (Hreg : ∀ st, loadScripts h config = Ok st →
                       is_Some (property pluginName (Locals.scriptPlugins st))).
  { intros st (st0 & Hrun & -> & _)%loadScripts_Ok.
    eapply scripts_loop_registers; eauto. }
  split.
  - intros r (st & st' & Hs & Hp & _)%loadPlugins_Ok.
    by eapply plugins_loop_conflict in Hp; [|apply Hreg|].
  - intros st pre ref post st' Hs Hsplit Hname Hpre.
    unfold loadPlugins. rewrite Hs, Hsplit. simpl.
    rewrite forEach_app, Hpre. simpl. unfold pluginStep. rewrite Hname.
    apply plugins_loop_keeps in Hpre as [_ ->].
    by destruct (Hreg st Hs) as [p ->].
Qed.

Lemma declared_twice_aborts_witness :
  loadPlugins Fixture.node Fixture.declaredTwice
    = Exit (LoadedInBoth "@snowpack/plugin-babel").
Proof.
  assert (Hin : ("build:js", "@snowpack/plugin-babel")
                  ∈ SnowpackConfig.scripts Fixture.declaredTwice)
    by (simpl; by apply list_elem_of_singleton).
  assert (Hdir : pluginDirective Fixture.node Fixture.declaredTwice
                   ("build:js", "@snowpack/plugin-babel"))
    by (split; [eexists; split; reflexivity | eexists; reflexivity]).
  assert (Hplugins : "@snowpack/plugin-babel"
                       ∈ map pluginName_of (SnowpackConfig.plugins Fixture.declaredTwice))
    by (simpl; by apply list_elem_of_singleton).
  eapply (proj2 (declared_twice_aborts Fixture.node Fixture.declaredTwice
                   "build:js" "@snowpack/plugin-babel" Hin Hdir Hplugins)
            _ [] (Specifier "@snowpack/plugin-babel") []);
    reflexivity.
Defined.

(** The test of line 173 does not read the plugin: for a plugin that
    declares its input, the call throws, keeps the plugin as loaded, or
    renames it, as the global [name] decides. *)
Lemma pluginStep_with_input h config st ref plugin :
  property (pluginName_of ref) (Locals.scriptPlugins st) = None →
  requirePlugin h config (pluginName_of ref) (Some (pluginOptions_of ref)) = Some plugin →
  truthy_extensions (SnowpackPlugin.input plugin) = true →
  pluginStep h config st ref
  = match global_name h with
    | None => Throw ReferenceError
    | Some true => Ok (Locals.with_plugins (λ l, l ++ [plugin]) st)
    | Some false =>
        Ok (Locals.with_plugins (λ l, l ++ [with_name (pluginName_of ref) plugin]) st)
    end.
Proof.
  intros Hfree Hload Hinput. unfold pluginStep, loadPluginFromConfig.
  rewrite Hfree, Hload; simpl. rewrite Hinput; simpl.
  rewrite !andb_false_r; simpl. by destruct (global_name h) as [[]|].
Qed.

(** C4: the plugin that [@snowpack/plugin-svelte] loads declares the
    name ["svelte"].  Under Node.js the run throws on the test of line
    173; where the global [name] is falsy the plugin is returned under
    the name of its specifier; and where the global [name] is truthy a
    plugin that declares no name is returned without one. *)
Theorem declared_name_not_preserved :
  loadPlugins Fixture.node Fixture.sveltePlugins = Throw ReferenceError
  ∧ returnedPlugins (loadPlugins (Fixture.withGlobalName false) Fixture.sveltePlugins)
    = Some [with_name "@snowpack/plugin-svelte" Fixture.sveltePlugin]
  ∧ returnedPlugins (loadPlugins (Fixture.withGlobalName true) Fixture.vuePlugins)
    = Some [with_input_output ["vue"] Fixture.vuePlugin]
  ∧ SnowpackPlugin.name (with_input_output ["vue"] Fixture.vuePlugin) = None.
Proof. repeat split; reflexivity. Qed.

(** ** The mount format *)

(** C7, as the specification states it, fails on the key
    [mount:web_modules]: the directory of the command is not the one
    that is mounted. *)
Lemma parseMount_web_modules_counterexample :
  parseMount Fixture.node "mount:web_modules" "mount src"
    = Ok {| MountedDir.id := "mount:web_modules";
            MountedDir.fromDisk := "/project/node_modules/.cache/snowpack/dev/";
            MountedDir.toUrl := "/src/" |}
  ∧ "/project/node_modules/.cache/snowpack/dev/" ≠ JsPath.normalize ("src" +:+ "/").
Proof. split; [reflexivity | discriminate]. Qed.

(** C7, amended: for a command whose words are [mount], then the
    directory [dir], then what [yargs] reads as no other positional
    argument and as no [--to] or a [--to] that starts with a slash, the
    mount has the key as [id], [toUrl] is the normalized [--to] (or
    [/dir] without it) with a trailing separator, and [fromDisk] is the
    normalized [dir] with a trailing separator, unless the key is
    [mount:web_modules], where [DEV_DEPENDENCIES_DIR] takes the place of
    [dir]. *)
Theorem parseMount_well_formed h target cmd dir rest :
  JsString.split_spaces cmd = "mount" :: dir :: rest →
  positionals (yargs h (dir :: rest)) = [dir] →
  (to (yargs h (dir :: rest)) = VUndefined
   ∨ ∃ url, to (yargs h (dir :: rest)) = VString url
            ∧ JsString.starts_with "/" url = true) →
  parseMount h target cmd
  = Ok {| MountedDir.id := target;
          MountedDir.fromDisk :=
            JsPath.normalize
              ((if String.eqb target "mount:web_modules"
                then DEV_DEPENDENCIES_DIR h else dir) +:+ "/");
          MountedDir.toUrl :=
            JsPath.normalize
              (match to (yargs h (dir :: rest)) with
               | VString url => url
               | _ => "/" +:+ dir
               end +:+ "/") |}.
Proof.
  intros Hsplit Hpos Hto. unfold parseMount. rewrite Hsplit. simpl.
  rewrite Hpos. simpl.
  destruct Hto as [-> | (url & -> & Hurl)]; simpl; [done|].
  destruct url as [|c url]; [done|]. simpl in *.
  by apply Ascii.eqb_eq in Hurl as ->.
Qed.

Lemma parseMount_well_formed_witness :
  parseMount Fixture.node "mount:foo" "mount src --to /app"
  = Ok {| MountedDir.id := "mount:foo";
          MountedDir.fromDisk := "src/";
          MountedDir.toUrl := "/app/" |}.
Proof.
  apply (parseMount_well_formed Fixture.node "mount:foo" "mount src --to /app"
           "src" ["--to"; "/app"]).
  - reflexivity.
  - reflexivity.
  - right. exists "/app". split; reflexivity.
Defined.

(** Without [--to], the directory gives the URL. *)
Example parseMount_without_to :
  parseMount Fixture.node "mount:foo" "mount src"
  = Ok {| MountedDir.id := "mount:foo";
          MountedDir.fromDisk := "src/";
          MountedDir.toUrl := "/src/" |}.
Proof. reflexivity. Qed.

(** With [--to] in front, the word after [mount] is still what is
    mounted. *)
Example parseMount_to_first :
  parseMount Fixture.node "mount:foo" "mount --to /app src"
  = Ok {| MountedDir.id := "mount:foo";
          MountedDir.fromDisk := "--to/";
          MountedDir.toUrl := "/app/" |}.
Proof. reflexivity. Qed.

(** ** [createBuildPipeline] *)

Section Pipeline.
Implicit Types (pipeline : gmap string (list SnowpackPlugin.t)).
Implicit Types (plugin : SnowpackPlugin.t) (ext key : string).

Lemma extend_chain_app chain l1 l2 :
  extend_chain (extend_chain chain l1) l2 = extend_chain chain (l1 ++ l2).
Proof.
  destruct l1 as [|p l1]; [done|]. destruct l2 as [|q l2]; simpl.
  - by rewrite app_nil_r.
  - by rewrite <- app_assoc.
Qed.

Lemma clean_empty : clean ∅.
Proof. intros key _. apply lookup_empty. Qed.

Lemma addPlugin_Ok plugin pipeline ext pipeline' :
  addPlugin plugin pipeline ext = Ok pipeline' →
  ∀ key, pipeline' !! key
         = if decide (key = ext) then extend_chain (pipeline !! key) [plugin]
           else pipeline !! key.
Proof.
  unfold addPlugin. intros H key.
  destruct (pipeline !! ext) as [chain|] eqn:Hext.
  - injection H as <-. case_decide as Hkey.
    + subst key. by rewrite lookup_insert_eq, Hext.
    + by rewrite lookup_insert_ne.
  - destruct (inherited ext); [done|]. injection H as <-. case_decide as Hkey.
    + subst key. by rewrite lookup_insert_eq, Hext.
    + by rewrite lookup_insert_ne.
Qed.

Lemma addPlugin_clean plugin pipeline ext pipeline' :
  clean pipeline → addPlugin plugin pipeline ext = Ok pipeline' →
  inherited ext = false ∧ clean pipeline'.
Proof.
  intros Hclean H.
  assert (Hext : inherited ext = false).
  { destruct (inherited ext) eqn:E; [|done].
    unfold addPlugin in H. by rewrite (Hclean ext E), E in H. }
  split; [done|]. intros key Hkey.
  rewrite (addPlugin_Ok _ _ _ _ H). case_decide; [congruence | auto].
Qed.

Lemma addPlugin_returns plugin pipeline ext :
  inherited ext = false → ∃ pipeline', addPlugin plugin pipeline ext = Ok pipeline'.
Proof.
  intros Hext. unfold addPlugin. rewrite Hext. destruct (pipeline !! ext); eauto.
Qed.

Lemma addPlugin_throws plugin pipeline ext :
  clean pipeline → inherited ext = true →
  addPlugin plugin pipeline ext = Throw TypeError.
Proof. intros Hclean Hext. unfold addPlugin. by rewrite (Hclean ext Hext), Hext. Qed.

(** The inner loop over the extensions [exts]. *)
Lemma addPlugins_Ok plugin exts pipeline pipeline' :
  forEach (addPlugin plugin) pipeline exts = Ok pipeline' →
  ∀ key, pipeline' !! key
         = extend_chain (pipeline !! key)
             (map (λ _, plugin) (filter (λ e, e = key) exts)).
Proof.
  revert pipeline. induction exts as [|e exts IH]; intros pipeline.
  - by intros [= <-] key.
  - rewrite forEach_cons. intros (p1 & H1 & Hrest)%bind_Ok key.
    rewrite (IH _ Hrest), (addPlugin_Ok _ _ _ _ H1), filter_cons.
    destruct (decide (key = e)) as [->|Hne].
    + rewrite decide_True by done. by rewrite extend_chain_app.
    + by rewrite decide_False by congruence.
Qed.

Lemma addPlugins_clean plugin exts pipeline pipeline' :
  clean pipeline → forEach (addPlugin plugin) pipeline exts = Ok pipeline' →
  Forall (λ e, inherited e = false) exts ∧ clean pipeline'.
Proof.
  revert pipeline. induction exts as [|e exts IH]; intros pipeline Hclean.
  - intros [= <-]. by split.
  - rewrite forEach_cons. intros (p1 & H1 & Hrest)%bind_Ok.
    destruct (addPlugin_clean _ _ _ _ Hclean H1) as [He Hclean1].
    destruct (IH _ Hclean1 Hrest) as [Hall Hclean']. split; [by constructor | done].
Qed.

Lemma addPlugins_returns plugin exts pipeline :
  Forall (λ e, inherited e = false) exts →
  ∃ pipeline', forEach (addPlugin plugin) pipeline exts = Ok pipeline'.
Proof.
  intros Hall. revert pipeline. induction Hall as [|e exts He _ IH]; intros pipeline.
  - by eexists.
  - destruct (addPlugin_returns plugin pipeline e He) as (p1 & H1).
    destruct (IH p1) as (p' & Hrest). exists p'. by rewrite forEach_cons, H1.
Qed.

Lemma addPlugins_throws plugin exts pipeline :
  clean pipeline → Exists (λ e, inherited e = true) exts →
  forEach (addPlugin plugin) pipeline exts = Throw TypeError.
Proof.
  intros Hclean Hex. revert pipeline Hclean.
  induction exts as [|e exts IH]; intros pipeline Hclean; [by inversion Hex|].
  rewrite forEach_cons. destruct (inherited e) eqn:He.
  - by rewrite addPlugin_throws.
  - destruct (addPlugin_returns plugin pipeline e He) as (p1 & H1). rewrite H1. simpl.
    apply IH.
    + inversion Hex as [? ? Hhd|? ? Htl]; subst; [congruence | done].
    + by apply (addPlugin_clean _ _ _ _ Hclean H1).
Qed.

(** The extensions of the inner loop are those that the plugin takes. *)
Lemma takes_inputs plugin ext : takes plugin ext ↔ ext ∈ inputs plugin.
Proof.
  unfold takes, inputs. destruct (SnowpackPlugin.input plugin) as [[e|exts]|].
  - rewrite list_elem_of_singleton. split; congruence.
  - done.
  - by rewrite list_elem_of_singleton.
Qed.

Lemma inputSet_NoDup plugin : inputSet plugin → NoDup (inputs plugin).
Proof.
  unfold inputSet, inputs. destruct (SnowpackPlugin.input plugin) as [[e|exts]|];
    [intros _; apply NoDup_singleton | done | intros _; apply NoDup_singleton].
Qed.

Lemma ownExtensions_inputs plugin :
  ownExtensions plugin ↔ Forall (λ e, inherited e = false) (inputs plugin).
Proof.
  unfold ownExtensions. rewrite Forall_forall.
  split; intros H ext Hext; apply H; by apply takes_inputs.
Qed.

Lemma elem_of_copies ext plugin p :
  p ∈ copies ext plugin ↔ p = plugin ∧ takes plugin ext.
Proof.
  unfold copies. rewrite list_elem_of_fmap, takes_inputs. split.
  - intros (e & -> & [-> ?]%list_elem_of_filter). done.
  - intros [-> ?]. exists ext. split; [done|]. by apply list_elem_of_filter.
Qed.

Lemma copies_set ext plugin :
  inputSet plugin →
  copies ext plugin = if decide (takes plugin ext) then [plugin] else [].
Proof.
  intros Hset%inputSet_NoDup. unfold copies.
  assert (Hlist : ∀ exts, NoDup exts →
            map (λ _ : string, plugin) (filter (λ e, e = ext) exts)
            = if decide (ext ∈ exts) then [plugin] else []).
  { induction 1 as [|e exts Hnotin _ IH].
    - rewrite filter_nil. by rewrite decide_False by apply not_elem_of_nil.
    - rewrite filter_cons. destruct (decide (e = ext)) as [->|Hne].
      + rewrite decide_True by (by left). cbn [map]. rewrite IH.
        by rewrite decide_False by done.
      + rewrite IH. destruct (decide (ext ∈ exts)) as [Hin|Hnin].
        * by rewrite decide_True by (by right).
        * rewrite decide_False; [done|]. rewrite not_elem_of_cons. split; congruence. }
  rewrite (Hlist _ Hset).
  destruct (decide (ext ∈ inputs plugin)) as [Hin|Hnin].
  - by rewrite decide_True by (by apply takes_inputs).
  - by rewrite decide_False by (by rewrite takes_inputs).
Qed.

Lemma bind_copies_filter ext plugins :
  Forall inputSet plugins →
  plugins ≫= copies ext = filter (λ plugin, takes plugin ext) plugins.
Proof.
  induction 1 as [|p plugins Hp _ IH]; [done|].
  rewrite bind_cons, filter_cons, IH, copies_set by done. by case_decide.
Qed.

Lemma indexPlugin_Ok plugin pipeline pipeline' :
  indexPlugin pipeline plugin = Ok pipeline' →
  ∀ key, pipeline' !! key = extend_chain (pipeline !! key) (copies key plugin).
Proof. apply addPlugins_Ok. Qed.

(** The outer loop over the plugins. *)
Lemma index_Ok plugins pipeline pipeline' :
  forEach indexPlugin pipeline plugins = Ok pipeline' →
  ∀ key, pipeline' !! key = extend_chain (pipeline !! key) (plugins ≫= copies key).
Proof.
  revert pipeline. induction plugins as [|p plugins IH]; intros pipeline.
  - by intros [= <-] key.
  - rewrite forEach_cons. intros (p1 & H1 & Hrest)%bind_Ok key.
    by rewrite bind_cons, (IH _ Hrest), (indexPlugin_Ok _ _ _ H1), extend_chain_app.
Qed.

Lemma index_clean plugins pipeline pipeline' :
  clean pipeline → forEach indexPlugin pipeline plugins = Ok pipeline' →
  Forall ownExtensions plugins ∧ clean pipeline'.
Proof.
  revert pipeline. induction plugins as [|p plugins IH]; intros pipeline Hclean.
  - intros [= <-]. by split.
  - rewrite forEach_cons. intros (p1 & H1 & Hrest)%bind_Ok.
    destruct (addPlugins_clean _ _ _ _ Hclean H1) as [Hp Hclean1].
    destruct (IH _ Hclean1 Hrest) as [Hall Hclean']. split; [|done].
    constructor; [by apply ownExtensions_inputs | done].
Qed.

Lemma index_returns plugins pipeline :
  Forall ownExtensions plugins →
  ∃ pipeline', forEach indexPlugin pipeline plugins = Ok pipeline'.
Proof.
  intros Hall. revert pipeline. induction Hall as [|p plugins Hp _ IH]; intros pipeline.
  - by eexists.
  - apply ownExtensions_inputs in Hp.
    destruct (addPlugins_returns p _ pipeline Hp) as (p1 & H1).
    destruct (IH p1) as (p' & Hrest). exists p'.
    rewrite forEach_cons.
    change (indexPlugin pipeline p) with (forEach (addPlugin p) pipeline (inputs p)).
    by rewrite H1.
Qed.

Lemma index_throws plugins pipeline :
  clean pipeline → Exists (λ plugin, ¬ ownExtensions plugin) plugins →
  forEach indexPlugin pipeline plugins = Throw TypeError.
Proof.
  intros Hclean Hex. revert pipeline Hclean.
  induction plugins as [|p plugins IH]; intros pipeline Hclean; [by inversion Hex|].
  rewrite forEach_cons.
  destruct (decide (Forall (λ e, inherited e = false) (inputs p))) as [Hp|Hp].
  - destruct (addPlugins_returns p _ pipeline Hp) as (p1 & H1).
    change (indexPlugin pipeline p) with (forEach (addPlugin p) pipeline (inputs p)). rewrite H1. simpl. apply IH.
    + inversion Hex as [? ? Hhd|? ? Htl]; subst; [|done].
      by apply ownExtensions_inputs in Hp.
    + by apply (addPlugins_clean _ _ _ _ Hclean H1).
  - change (indexPlugin pipeline p) with (forEach (addPlugin p) pipeline (inputs p)).
    rewrite (addPlugins_throws p (inputs p) pipeline Hclean); [done|].
    apply not_Forall_Exists in Hp; [|apply _].
    eapply Exists_impl; [exact Hp|]. simpl. intros e He. by destruct (inherited e).
Qed.

Lemma chainOf_extend l : default [] (extend_chain None l) = l.
Proof. by destruct l. Qed.

Lemma createBuildPipeline_chain plugins pipeline ext :
  createBuildPipeline plugins = Ok pipeline →
  chainOf pipeline ext = plugins ≫= copies ext.
Proof.
  intros H. unfold chainOf.
  by rewrite (index_Ok _ _ _ H), lookup_empty, chainOf_extend.
Qed.

End Pipeline.

(** C9, as the specification states it, fails on a plugin list with an
    input named like a member that objects inherit: [pipeline[ext]] is
    then truthy without being an array, [push] is not a function, and
    no pipeline is returned. *)
Lemma createBuildPipeline_inherited_counterexample :
  createBuildPipeline [Fixture.jsxPlugin; Fixture.constructorListPlugin]
  = Throw TypeError.
Proof. reflexivity. Qed.

(** C9, amended: for a plugin list in which the input of each plugin is
    a set (an array lists no extension twice) and no input is named
    like a member inherited from [Object.prototype], the indexer
    returns a pipeline that has under each extension the plugins that
    take it, in the order of the plugin list, and no key for an
    extension that no plugin takes.  The result is determined by the
    list: every call starts from an empty object, and a mapping with
    the same chains is the same pipeline. *)
Theorem createBuildPipeline_index plugins :
  Forall inputSet plugins →
  Forall ownExtensions plugins →
  ∃ pipeline,
    createBuildPipeline plugins = Ok pipeline
    ∧ (∀ ext,
         pipeline !! ext
         = match filter (λ plugin, takes plugin ext) plugins with
           | [] => None
           | chain => Some chain
           end)
    ∧ (∀ pipeline' : gmap string (list SnowpackPlugin.t),
         (∀ ext,
            pipeline' !! ext
            = match filter (λ plugin, takes plugin ext) plugins with
              | [] => None
              | chain => Some chain
              end) →
         createBuildPipeline plugins = Ok pipeline').
Proof.
  intros Hsets Hown.
  destruct (index_returns plugins ∅ Hown) as (pipeline & Hp).
  assert (Hlookup : ∀ ext,
            pipeline !! ext
            = match filter (λ plugin, takes plugin ext) plugins with
              | [] => None
              | chain => Some chain
              end).
  { intros ext. rewrite (index_Ok _ _ _ Hp), lookup_empty, bind_copies_filter by done.
    by destruct (filter _ plugins). }
  exists pipeline. split; [done|]. split; [done|].
  intros pipeline' Hlookup'. unfold createBuildPipeline. rewrite Hp. f_equal.
  apply map_eq. intros ext. by rewrite Hlookup, Hlookup'.
Qed.

Lemma createBuildPipeline_index_witness :
  ∃ pipeline,
    createBuildPipeline [Fixture.jsxPlugin; Fixture.sveltePlugin; Fixture.minifyPlugin]
    = Ok pipeline
    ∧ pipeline !! ".js" = Some [Fixture.jsxPlugin; Fixture.minifyPlugin]
    ∧ pipeline !! ".jsx" = Some [Fixture.jsxPlugin]
    ∧ pipeline !! ".svelte" = Some [Fixture.sveltePlugin]
    ∧ pipeline !! ".css" = None.
Proof.
  destruct (createBuildPipeline_index
              [Fixture.jsxPlugin; Fixture.sveltePlugin; Fixture.minifyPlugin])
    as (pipeline & Hp & Hlookup & _).
  - repeat match goal with |- Forall _ _ => constructor end;
      unfold inputSet; simpl; try done;
      apply (bool_decide_unpack _); vm_compute; exact I.
  - repeat match goal with |- Forall _ _ => constructor end;
      apply ownExtensions_inputs; simpl; repeat constructor.
  - exists pipeline. split; [exact Hp|]. rewrite !Hlookup. repeat split.
Defined.

(** C10, as the specification states it, fails on a plugin whose
    [input] is a string named like an inherited member: the call
    throws, and the plugin is added to no chain. *)
Lemma indexPlugin_inherited_counterexample :
  SnowpackPlugin.input Fixture.constructorPlugin = Some (OneExtension "constructor")
  ∧ indexPlugin ∅ Fixture.constructorPlugin = Throw TypeError
  ∧ createBuildPipeline [Fixture.constructorPlugin] = Throw TypeError.
Proof. repeat split. Qed.

(** C10, amended: a plugin whose [input] is one string that is not named
    like a member inherited from [Object.prototype] is added at the end
    of the chain of that extension, which is created when the pipeline
    has none, and every other chain stays as it is. *)
Theorem indexPlugin_one_extension pipeline plugin ext :
  SnowpackPlugin.input plugin = Some (OneExtension ext) →
  inherited ext = false →
  ∃ pipeline',
    indexPlugin pipeline plugin = Ok pipeline'
    ∧ pipeline' !! ext = Some (default [] (pipeline !! ext) ++ [plugin])
    ∧ ∀ key, key ≠ ext → pipeline' !! key = pipeline !! key.
Proof.
  intros Hinput Hext.
  assert (Hinputs : inputs plugin = [ext]) by (unfold inputs; by rewrite Hinput).
  unfold indexPlugin. rewrite Hinputs, forEach_cons.
  destruct (addPlugin_returns plugin pipeline ext Hext) as (pipeline' & H).
  exists pipeline'. rewrite H. split; [done|]. split.
  - rewrite (addPlugin_Ok _ _ _ _ H). by rewrite decide_True by done.
  - intros key Hne. rewrite (addPlugin_Ok _ _ _ _ H). by rewrite decide_False by done.
Qed.

Lemma indexPlugin_one_extension_witness :
  ∃ pipeline',
    indexPlugin {[ ".js" := [Fixture.jsxPlugin]; ".jsx" := [Fixture.jsxPlugin] ]}
                Fixture.minifyPlugin = Ok pipeline'
    ∧ pipeline' !! ".js" = Some [Fixture.jsxPlugin; Fixture.minifyPlugin]
    ∧ pipeline' !! ".jsx" = Some [Fixture.jsxPlugin].
Proof.
  destruct (indexPlugin_one_extension
              {[ ".js" := [Fixture.jsxPlugin]; ".jsx" := [Fixture.jsxPlugin] ]}
              Fixture.minifyPlugin ".js" eq_refl eq_refl)
    as (pipeline' & Hp & Hjs & Hother).
  exists pipeline'. split; [exact Hp|]. split.
  - rewrite Hjs. reflexivity.
  - rewrite Hother by discriminate. reflexivity.
Defined.

(** * Further properties of the code *)

(** ** [parseScript]: keys without a colon, and the shape of the result *)

Section Classifier.
Import JsString.

Lemma lower_char_colon c : Ascii.eqb (lower_char c) ":" = Ascii.eqb c ":".
Proof. destruct c as [[] [] [] [] [] [] [] []]; reflexivity. Qed.

Lemma includes_toLowerCase s : includes ":" (toLowerCase s) = includes ":" s.
Proof. induction s as [|c s IH]; simpl; [done|]. by rewrite lower_char_colon, IH. Qed.

Lemma split_without sep s : includes sep s = false → split sep s = [s].
Proof.
  induction s as [|c s IH]; simpl; [done|].
  destruct (Ascii.eqb c sep); simpl; [done|]. intros H. by rewrite IH.
Qed.

Lemma split_with sep s :
  includes sep s = true → ∃ first second rest, split sep s = first :: second :: rest.
Proof.
  induction s as [|c s IH]; simpl; [done|].
  destruct (Ascii.eqb c sep); simpl.
  - intros _. pose proof (split_nonempty sep s).
    destruct (split sep s) as [|w ws]; [done|]. by exists "", w, ws.
  - intros (first & second & rest & ->)%IH. simpl. by exists (String c first), second, rest.
Qed.

Lemma trimStart_idemp s : trimStart (trimStart s) = trimStart s.
Proof.
  induction s as [|c s IH]; simpl; [done|].
  destruct (is_space c) eqn:E; [done|]. simpl. by rewrite E.
Qed.

Lemma trimEnd_idemp s : trimEnd (trimEnd s) = trimEnd s.
Proof.
  induction s as [|c s IH]; simpl; [done|].
  destruct (trimEnd s) as [|d r] eqn:E.
  - destruct (is_space c) eqn:Ec; simpl; [done|]. by rewrite Ec.
  - change (trimEnd (String c (String d r))) with
      (match trimEnd (String d r) with
       | EmptyString => if is_space c then EmptyString else String c EmptyString
       | r' => String c r'
       end).
    by rewrite IH.
Qed.

(** A string that does not begin with white space. *)
Lemma trimStart_fixed s :
  match s with String c _ => is_space c = false | EmptyString => True end →
  trimStart s = s.
Proof. destruct s as [|c s]; simpl; [done|]. by intros ->. Qed.

Lemma trimEnd_keeps_start s :
  match s with String c _ => is_space c = false | EmptyString => True end →
  match trimEnd s with String c _ => is_space c = false | EmptyString => True end.
Proof.
  destruct s as [|c s]; simpl; [done|]. intros Hc.
  destruct (trimEnd s); [by rewrite Hc | done].
Qed.

Lemma trimStart_start s :
  match trimStart s with String c _ => is_space c = false | EmptyString => True end.
Proof.
  induction s as [|c s IH]; simpl; [done|]. by destruct (is_space c) eqn:E.
Qed.

Lemma trim_idemp s : trim (trim s) = trim s.
Proof.
  unfold trim.
  rewrite (trimStart_fixed (trimEnd (trimStart s))).
  - apply trimEnd_idemp.
  - apply trimEnd_keeps_start, trimStart_start.
Qed.

End Classifier.

(** X1: [parseScript] throws a [TypeError] exactly on the keys without a
    colon, and returns on every other key; it never ends in
    [handleError]. *)
Theorem parseScript_throws_without_colon script :
  (includes ":" script = false ↔ parseScript script = Throw TypeError)
  ∧ (includes ":" script = true ↔ ∃ parsed, parseScript script = Ok parsed)
  ∧ ∀ e, parseScript script ≠ Exit e.
Proof.
  unfold parseScript.
  destruct (includes ":" script) eqn:Hcolon.
  - rewrite <- includes_toLowerCase in Hcolon.
    apply split_with in Hcolon as (first & second & rest & ->).
    split; [split; done|]. split; [|done]. split; [eauto | done].
  - rewrite <- includes_toLowerCase in Hcolon.
    rewrite (split_without _ _ Hcolon).
    split; [done|]. split; [|done]. split; [done | by intros [? ?]].
Qed.

(** X2: the extensions that [parseScript] returns are a set in list
    form: at least one element, no element twice, and no element with
    white space at either end. *)
Theorem parseScript_extensions_set script parsed :
  parseScript script = Ok parsed →
  extensions parsed ≠ []
  ∧ NoDup (extensions parsed)
  ∧ Forall (λ ext, JsString.trim ext = ext) (extensions parsed).
Proof.
  intros H. split; [by eapply parseScript_extensions_nonempty|].
  unfold parseScript in H.
  destruct (JsString.split ":" (JsString.toLowerCase script)) as [|t [|e rest]]; try done.
  injection H as <-; simpl. split; [apply unique_NoDup|].
  apply Forall_forall. intros x Hx%unique_subset.
  apply list_elem_of_fmap in Hx as (tok & -> & _).
  exact (trim_idemp tok).
Qed.

Lemma parseScript_extensions_set_witness :
  ["js"; "jsx"] ≠ []
  ∧ NoDup ["js"; "jsx"]
  ∧ Forall (λ ext, JsString.trim ext = ext) ["js"; "jsx"].
Proof.
  exact (parseScript_extensions_set "build: js , JSX, js"
           {| scriptType := "build"; extensions := ["js"; "jsx"] |} eq_refl).
Defined.

(** ** The scripts loop, directive by directive *)

Section ScriptsLoop.
Context (h : Host) (config : SnowpackConfig.t).

Lemma scriptTypeOf_Ok target parsed :
  parseScript target = Ok parsed →
  scriptTypeOf target = Some (scriptType parsed)
  ∧ extensionsOf target = extensions parsed.
Proof. unfold scriptTypeOf, extensionsOf. by intros ->. Qed.

(** The six ways in which a call of the first callback returns. *)
Lemma scriptStep_cases st target cmd st' :
  scriptStep h config st (target, cmd) = Ok st' →
  ∃ parsed, parseScript target = Ok parsed ∧
    ((scriptType parsed = "run"
      ∧ st' = Locals.with_runCommands (λ l, l ++ [runCmdOf (target, cmd)]) st)
     ∨ (scriptType parsed = "build"
        ∧ (∃ plugin, loadPluginFromScript h config cmd = Some plugin
           ∧ property cmd (Locals.scriptPlugins st) = None
           ∧ st' = Locals.with_scriptPlugins
                     (λ l, l ++ [(cmd, scriptPlugin plugin cmd (extensions parsed))]) st))
     ∨ (scriptType parsed = "build"
        ∧ loadPluginFromScript h config cmd = None
        ∧ st' = Locals.with_buildCommands
                  (λ m, foldl (λ m ext, <[ext := runCmdOf (target, cmd)]> m)
                              m (extensions parsed)) st)
     ∨ (scriptType parsed = "mount"
        ∧ (∃ dir, parseMount h target cmd = Ok dir
           ∧ st' = Locals.with_mountedDirs (λ l, l ++ [dir]) st))
     ∨ (scriptType parsed = "bundle"
        ∧ (∃ bundler, loadPluginFromScript h config cmd = Some bundler
           ∧ st' = Locals.with_bundler (Some (namedBundler cmd bundler)) st))
     ∨ (scriptType parsed ≠ "run" ∧ scriptType parsed ≠ "build"
        ∧ scriptType parsed ≠ "mount" ∧ scriptType parsed ≠ "bundle" ∧ st' = st)).
Proof.
  unfold scriptStep. intros (parsed & Hp & H)%bind_Ok. exists parsed. split; [done|].
  destruct (String.eqb_spec (scriptType parsed) "run") as [Hrun|Hrun].
  { injection H as <-. by left. }
  destruct (String.eqb_spec (scriptType parsed) "build") as [Hbuild|Hbuild].
  { destruct (loadPluginFromScript h config cmd) as [plugin|] eqn:Hl.
    - destruct (property cmd (Locals.scriptPlugins st)) eqn:Hreg.
      + by rewrite merge_branch_throws in H.
      + injection H as <-. right; left. split; [done|]. exists plugin.
        repeat split. unfold Locals.with_scriptPlugins. by rewrite set_property_new.
    - injection H as <-. right; right; left. done. }
  destruct (String.eqb_spec (scriptType parsed) "mount") as [Hmount|Hmount].
  { apply bind_Ok in H as (dir & Hd & [= <-]).
    right; right; right; left. split; [done|]. by exists dir. }
  destruct (String.eqb_spec (scriptType parsed) "bundle") as [Hbundle|Hbundle].
  { destruct (loadPluginFromScript h config cmd) as [bundler|] eqn:Hl; [|done].
    injection H as <-. right; right; right; right; left. split; [done|].
    exists bundler. split; [done|]. unfold namedBundler.
    by destruct (truthy_string (SnowpackPlugin.name bundler)). }
  injection H as <-. by do 5 right.
Qed.

Lemma foldl_insert_lookup (v : RunCmd.t) exts (m : gmap string RunCmd.t) key :
  foldl (λ m ext, <[ext := v]> m) m exts !! key
  = if decide (key ∈ exts) then Some v else m !! key.
Proof.
  revert m. induction exts as [|e exts IH]; intros m; cbn [foldl].
  - by rewrite decide_False by apply not_elem_of_nil.
  - rewrite IH. destruct (decide (key ∈ exts)) as [Hin|Hnin].
    + by rewrite decide_True by (by right).
    + destruct (decide (key = e)) as [->|Hne].
      * rewrite decide_True by (by left). by rewrite lookup_insert_eq.
      * rewrite decide_False by (rewrite not_elem_of_cons; by split).
        by rewrite lookup_insert_ne.
Qed.

Lemma filter_snoc {A} (P : A → Prop) `{∀ x, Decision (P x)} (l : list A) a :
  filter P (l ++ [a]) = if decide (P a) then filter P l ++ [a] else filter P l.
Proof.
  rewrite filter_app, filter_cons, filter_nil.
  case_decide; [done | by rewrite app_nil_r].
Qed.

Lemma omap_snoc {A B} (f : A → option B) (l : list A) a :
  omap f (l ++ [a]) = omap f l ++ from_option (λ y, [y]) [] (f a).
Proof. rewrite omap_app. simpl. by destruct (f a). Qed.

(** What the loop has in its variables once it has run the directives
    [l]: each variable is a function of the directives of its kind. *)
Lemma scripts_loop_result l st :
  forEach (scriptStep h config) Locals.initial l = Ok st →
  Locals.plugins st = []
  ∧ Locals.runCommands st
    = runCmdOf <$> filter (λ entry, scriptTypeOf entry.1 = Some "run") l
  ∧ Locals.scriptPlugins st = omap (scriptPluginOf h config) l
  ∧ Locals.mountedDirs st = omap (mountOf h) l
  ∧ Locals.bundler st
    = last (filter (λ entry, scriptTypeOf entry.1 = Some "bundle") l)
        ≫= bundlerOf h config
  ∧ ∀ ext, Locals.buildCommands st !! ext
           = runCmdOf <$> last (filter (shellBuildFor h config ext) l).
Proof.
  intros Hrun. pattern st, l. eapply forEach_invariant; [| |exact Hrun].
  { repeat split. }
  clear. intros st seen [target cmd] st' (Hpl & Hrc & Hsp & Hmd & Hb & Hbc) Hstep.
  apply scriptStep_cases in Hstep as (parsed & Hp & Hcase).
  destruct (scriptTypeOf_Ok _ _ Hp) as [Htype Hexts].
  assert (Esp : scriptPluginOf h config (target, cmd)
                = if decide (scriptType parsed = "build") then
                    plugin ← loadPluginFromScript h config cmd;
                    Some (cmd, scriptPlugin plugin cmd (extensions parsed))
                  else None).
  { unfold scriptPluginOf. simpl. rewrite Htype, Hexts.
    repeat case_decide; first [done | congruence]. }
  assert (Emd : mountOf h (target, cmd)
                = if decide (scriptType parsed = "mount") then
                    match parseMount h target cmd with Ok dir => Some dir | _ => None end
                  else None).
  { unfold mountOf. simpl. rewrite Htype. repeat case_decide; first [done | congruence]. }
  assert (Esh : ∀ ext, shellBuildFor h config ext (target, cmd)
                       ↔ scriptType parsed = "build"
                         ∧ loadPluginFromScript h config cmd = None
                         ∧ ext ∈ extensions parsed).
  { intros ext. unfold shellBuildFor. simpl. rewrite Htype, Hexts.
    split; intros (? & ? & ?); split_and!; first [done | congruence]. }
  split_and!.
  - destruct Hcase as [[Ht ->] | [(Ht & plugin & Hl & Hfree & ->) | [(Ht & Hl & ->) |
      [(Ht & dir & Hd & ->) | [(Ht & b & Hl & ->) | (? & ? & ? & ? & ->)]]]]]; done.
  - rewrite filter_snoc. cbn [fst]. rewrite Htype. clear Esp Emd Esh.
    destruct Hcase as [[Ht ->] | [(Ht & plugin & Hl & Hfree & ->) | [(Ht & Hl & ->) |
      [(Ht & dir & Hd & ->) | [(Ht & b & Hl & ->) | (? & ? & ? & ? & ->)]]]]];
      case_decide; simplify_eq; simpl; rewrite ?fmap_app; simpl; congruence.
  - rewrite omap_snoc, Esp. clear Esp Emd Esh.
    destruct Hcase as [[Ht ->] | [(Ht & plugin & Hl & Hfree & ->) | [(Ht & Hl & ->) |
      [(Ht & dir & Hd & ->) | [(Ht & b & Hl & ->) | (? & ? & ? & ? & ->)]]]]];
      case_decide; simplify_eq; simpl; rewrite ?Hl; simpl; rewrite ?app_nil_r; congruence.
  - rewrite omap_snoc, Emd. clear Esp Emd Esh.
    destruct Hcase as [[Ht ->] | [(Ht & plugin & Hl & Hfree & ->) | [(Ht & Hl & ->) |
      [(Ht & dir & Hd & ->) | [(Ht & b & Hl & ->) | (? & ? & ? & ? & ->)]]]]];
      case_decide; simplify_eq; simpl; rewrite ?Hd; simpl; rewrite ?app_nil_r; congruence.
  - rewrite filter_snoc. cbn [fst]. rewrite Htype. clear Esp Emd Esh.
    destruct Hcase as [[Ht ->] | [(Ht & plugin & Hl & Hfree & ->) | [(Ht & Hl & ->) |
      [(Ht & dir & Hd & ->) | [(Ht & b & Hl & ->) | (? & ? & ? & ? & ->)]]]]];
      case_decide; simplify_eq; simpl; try congruence.
    rewrite last_snoc. simpl. unfold bundlerOf. simpl. by rewrite Hl.
  - intros ext. rewrite filter_snoc.
    destruct Hcase as [[Ht ->] | [(Ht & plugin & Hl & Hfree & ->) | [(Ht & Hl & ->) |
      [(Ht & dir & Hd & ->) | [(Ht & b & Hl & ->) | (? & ? & ? & ? & ->)]]]]];
      simpl; try (rewrite decide_False by (rewrite Esh; intros (? & ? & ?); congruence);
                  by apply Hbc).
    rewrite foldl_insert_lookup.
    destruct (decide (ext ∈ extensions parsed)) as [Hin|Hnin].
    + rewrite decide_True by (by apply Esh). by rewrite last_snoc.
    + rewrite decide_False by (rewrite Esh; by intros (_ & _ & ?)). apply Hbc.
Qed.

End ScriptsLoop.

Example mixedScripts_loaded :
  loadPlugins Fixture.node Fixture.mixedScripts = Ok Fixture.mixedLoaded.
Proof. vm_compute. reflexivity. Qed.

Example ownWebModules_loaded :
  loadPlugins Fixture.node Fixture.ownWebModules = Ok Fixture.ownWebModulesLoaded.
Proof. vm_compute. reflexivity. Qed.

Example scriptsAndPlugins_loaded :
  loadPlugins (Fixture.withGlobalName false) Fixture.scriptsAndPlugins
  = Ok Fixture.scriptsAndPluginsLoaded.
Proof. vm_compute. reflexivity. Qed.

(** ** The plugins loop, entry by entry *)

Section PluginsLoop.
Context (h : Host) (config : SnowpackConfig.t).

(** The one way in which a call of the second callback returns. *)
Lemma pluginStep_cases st ref st' :
  pluginStep h config st ref = Ok st' →
  ∃ b plugin,
    global_name h = Some b
    ∧ property (pluginName_of ref) (Locals.scriptPlugins st) = None
    ∧ mergedOf h config b ref = Some plugin
    ∧ st' = Locals.with_plugins (λ l, l ++ [plugin]) st.
Proof.
  unfold pluginStep, mergedOf, loadPluginFromConfig, backfilled.
  destruct (property (pluginName_of ref) (Locals.scriptPlugins st)); [done|].
  destruct (requirePlugin h config _ _) as [loaded|]; [simpl|done].
  destruct (truthy_extensions (SnowpackPlugin.input loaded)) eqn:Hin;
    destruct (truthy_string (SnowpackPlugin.defaultBuildScript loaded)) eqn:Hdbs;
    simpl; try done.
  - destruct (global_name h) as [[]|]; simpl; [| |done];
      intros [= <-]; eexists _, _; done.
  - destruct (global_name h) as [[]|]; simpl; [| |done];
      intros [= <-]; eexists _, _; done.
  - destruct (parseScript _) as [parsed| |]; simpl; [|done|done].
    destruct (global_name h) as [[]|]; simpl; [| |done];
      intros [= <-]; eexists _, _; done.
Qed.

(** A plugin that the second loop adds has an input, and a name when
    the global [name] is falsy. *)
Lemma mergedOf_input b ref plugin :
  mergedOf h config b ref = Some plugin →
  truthy_extensions (SnowpackPlugin.input plugin) = true
  ∧ (b = false → SnowpackPlugin.name plugin = Some (pluginName_of ref)).
Proof.
  unfold mergedOf, backfilled.
  destruct (requirePlugin h config _ _) as [loaded|]; [simpl|done].
  destruct (truthy_extensions (SnowpackPlugin.input loaded)) eqn:Hin.
  - intros [= <-]. destruct b; simpl; split; done.
  - destruct (truthy_string _); [|done].
    destruct (parseScript _) as [parsed| |]; simpl; [|done|done].
    intros [= <-]. destruct b; simpl; split; done.
Qed.

(** What the second loop has done once it has run the entries [l]. *)
Lemma plugins_loop_result l st st' :
  forEach (pluginStep h config) st l = Ok st' →
  Locals.runCommands st' = Locals.runCommands st
  ∧ Locals.buildCommands st' = Locals.buildCommands st
  ∧ Locals.bundler st' = Locals.bundler st
  ∧ Locals.mountedDirs st' = Locals.mountedDirs st
  ∧ (l = [] ∧ Locals.plugins st' = Locals.plugins st
     ∨ ∃ b, global_name h = Some b
            ∧ Locals.plugins st' = Locals.plugins st ++ omap (mergedOf h config b) l
            ∧ length (omap (mergedOf h config b) l) = length l).
Proof.
  intros Hrun. pattern st', l. eapply forEach_invariant; [| |exact Hrun].
  { repeat split. by left. }
  clear. intros s seen ref s1 (Hrc & Hbc & Hb & Hmd & Hpl) Hstep.
  apply pluginStep_cases in Hstep as (b & plugin & Hname & _ & Hmerged & ->). simpl.
  split_and!; try done. right. exists b. split; [done|].
  rewrite omap_snoc, Hmerged. simpl. rewrite !length_app. simpl.
  destruct Hpl as [[-> ->] | (b' & Hname' & -> & Hlen)].
  - done.
  - assert (b' = b) as -> by congruence. by rewrite <- app_assoc, Hlen.
Qed.

End PluginsLoop.

(** ** What [loadPlugins] returns *)

Section Returned.
Context (h : Host) (config : SnowpackConfig.t).

(** The returned object in terms of the two lists of the configuration. *)
Lemma loadPlugins_result r :
  loadPlugins h config = Ok r →
  Loaded.runCommands r
  = runCmdOf <$> filter (λ entry, scriptTypeOf entry.1 = Some "run")
                        (SnowpackConfig.scripts config)
  ∧ (∀ ext, Loaded.buildCommands r !! ext
            = runCmdOf <$> last (filter (shellBuildFor h config ext)
                                        (SnowpackConfig.scripts config)))
  ∧ Loaded.bundler r
    = last (filter (λ entry, scriptTypeOf entry.1 = Some "bundle")
                   (SnowpackConfig.scripts config))
        ≫= bundlerOf h config
  ∧ Loaded.mountedDirs r
    = omap (mountOf h) (SnowpackConfig.scripts config)
      ++ (if truthy_string (property "mount:web_modules" (SnowpackConfig.scripts config))
          then [] else [webModulesMount h])
  ∧ (SnowpackConfig.plugins config = []
     ∧ Loaded.plugins r
       = (omap (scriptPluginOf h config) (SnowpackConfig.scripts config)).*2
     ∨ ∃ b, global_name h = Some b
            ∧ Loaded.plugins r
              = (omap (scriptPluginOf h config) (SnowpackConfig.scripts config)).*2
                ++ omap (mergedOf h config b) (SnowpackConfig.plugins config)
            ∧ length (omap (mergedOf h config b) (SnowpackConfig.plugins config))
              = length (SnowpackConfig.plugins config)).
Proof.
  unfold loadPlugins, loadScripts.
  intros (st & (st0 & Hscripts & [= <-])%bind_Ok & H)%bind_Ok.
  apply bind_Ok in H as (st' & Hplugins & [= <-]). simpl.
  apply scripts_loop_result in Hscripts as (Hpl & Hrc & Hsp & Hmd & Hb & Hbc).
  apply plugins_loop_result in Hplugins as (Hrc' & Hbc' & Hb' & Hmd' & Hpl').
  rewrite Hrc', Hbc', Hb', Hmd'.
  destruct (truthy_string (property "mount:web_modules" (SnowpackConfig.scripts config)));
    simpl in *; rewrite ?Hpl, ?Hsp in Hpl'; simpl in Hpl';
    (split_and!; [done | done | done | by rewrite Hmd, ?app_nil_r | done]).
Qed.

End Returned.

(** X3: the run commands of the result are the [run] directives of
    [config.scripts], in the order of the scripts, each with its key as
    written as [id] and its command as [cmd]. *)
Theorem runCommands_in_script_order h config r :
  loadPlugins h config = Ok r →
  Loaded.runCommands r
  = runCmdOf <$> filter (λ entry, scriptTypeOf entry.1 = Some "run")
                        (SnowpackConfig.scripts config).
Proof. by intros (? & _)%loadPlugins_result. Qed.

Lemma runCommands_in_script_order_witness :
  Loaded.runCommands Fixture.mixedLoaded
  = runCmdOf <$> filter (λ entry, scriptTypeOf entry.1 = Some "run")
                        (SnowpackConfig.scripts Fixture.mixedScripts).
Proof.
  apply (runCommands_in_script_order Fixture.node Fixture.mixedScripts).
  vm_compute. reflexivity.
Defined.

(** X4: the build command of an extension is the last build directive,
    in the order of the scripts, whose command does not load as a
    plugin and whose key lists the extension; an extension that no such
    directive lists has no build command. *)
Theorem buildCommands_last_wins h config r ext :
  loadPlugins h config = Ok r →
  Loaded.buildCommands r !! ext
  = runCmdOf <$> last (filter (shellBuildFor h config ext)
                              (SnowpackConfig.scripts config)).
Proof. intros (_ & H & _)%loadPlugins_result. apply H. Qed.

Lemma buildCommands_last_wins_witness :
  Loaded.buildCommands Fixture.mixedLoaded !! "css"
  = runCmdOf <$> last (filter (shellBuildFor Fixture.node Fixture.mixedScripts "css")
                              (SnowpackConfig.scripts Fixture.mixedScripts)).
Proof.
  apply (buildCommands_last_wins Fixture.node Fixture.mixedScripts).
  vm_compute. reflexivity.
Defined.

Example buildCommands_css :
  Loaded.buildCommands Fixture.mixedLoaded !! "css"
  = Some {| RunCmd.id := "build:css,scss"; RunCmd.cmd := "sass" |}.
Proof. reflexivity. Qed.



(** X11: where [require.resolve] rejects the empty specifier, the
    bundler of a result has a name. *)
Theorem bundler_has_name h config r bundler :
  (∀ cfg options, requirePlugin h cfg "" options = None) →
  loadPlugins h config = Ok r →
  Loaded.bundler r = Some bundler →
  has_name bundler.
Proof.
  intros Hempty (_ & _ & -> & _)%loadPlugins_result.
  destruct (last _) as [[target cmd]|]; [simpl|done].
  unfold bundlerOf, loadPluginFromScript. simpl.
  destruct (requirePlugin h config cmd None) as [loaded|] eqn:Hl; [simpl|done].
  intros [= <-]. unfold has_name, namedBundler.
  destruct (truthy_string (SnowpackPlugin.name loaded)) eqn:Hn; [done|]. simpl.
  destruct cmd; [|done]. by rewrite Hempty in Hl.
Qed.

Lemma bundler_has_name_witness : has_name Fixture.sveltePlugin.
Proof.
  apply (bundler_has_name Fixture.node Fixture.mixedScripts Fixture.mixedLoaded).
  - reflexivity.
  - vm_compute. reflexivity.
  - reflexivity.
Defined.

(** X6: the mounts of the result are those of the [mount] directives,
    in the order of the scripts, followed by the mount of lines 140-144
    when [config.scripts] has no (non-empty) command under the key
    [mount:web_modules], and by nothing otherwise. *)
Theorem mountedDirs_in_script_order h config r :
  loadPlugins h config = Ok r →
  Loaded.mountedDirs r
  = omap (mountOf h) (SnowpackConfig.scripts config)
    ++ (if truthy_string (property "mount:web_modules" (SnowpackConfig.scripts config))
        then [] else [webModulesMount h]).
Proof. by intros (_ & _ & _ & ? & _)%loadPlugins_result. Qed.

Lemma mountedDirs_in_script_order_witness :
  Loaded.mountedDirs Fixture.mixedLoaded
  = omap (mountOf Fixture.node) (SnowpackConfig.scripts Fixture.mixedScripts)
    ++ (if truthy_string
             (property "mount:web_modules" (SnowpackConfig.scripts Fixture.mixedScripts))
        then [] else [webModulesMount Fixture.node]).
Proof.
  apply (mountedDirs_in_script_order Fixture.node Fixture.mixedScripts).
  vm_compute. reflexivity.
Defined.

(** X12: under Node.js, where the global object has no [name], no
    configuration with an entry in [plugins] gets a result. *)
Theorem node_plugins_never_return h config :
  global_name h = None →
  SnowpackConfig.plugins config ≠ [] →
  returnedPlugins (loadPlugins h config) = None.
Proof.
  intros Hnode Hplugins.
  destruct (loadPlugins h config) as [r| |] eqn:Hr; [exfalso | done | done].
  apply loadPlugins_result in Hr as (_ & _ & _ & _ & [[? _] | (b & ? & _)]);
    congruence.
Qed.

Lemma node_plugins_never_return_witness :
  returnedPlugins (loadPlugins Fixture.node Fixture.scriptsAndPlugins) = None.
Proof.
  apply (node_plugins_never_return Fixture.node Fixture.scriptsAndPlugins).
  - reflexivity.
  - discriminate.
Defined.

(** X13: on every host, each plugin of a returned plugin list has an
    [input] that is truthy: a non-empty string or an array. *)
Theorem loaded_plugins_have_truthy_input h config r :
  loadPlugins h config = Ok r →
  Forall (λ plugin, truthy_extensions (SnowpackPlugin.input plugin) = true)
         (Loaded.plugins r).
Proof.
  intros (_ & _ & _ & _ & Hpl)%loadPlugins_result.
  assert (Hscript : Forall (λ plugin, truthy_extensions (SnowpackPlugin.input plugin) = true)
                      (omap (scriptPluginOf h config) (SnowpackConfig.scripts config)).*2).
  { apply Forall_fmap, Forall_forall. intros [k p] Hin. simpl.
    apply list_elem_of_omap in Hin as (entry & _ & Hentry).
    unfold scriptPluginOf in Hentry. case_decide; [|done].
    destruct (loadPluginFromScript h config entry.2); [|done].
    by injection Hentry as _ <-. }
  destruct Hpl as [[_ ->] | (b & _ & -> & _)]; [done|].
  apply Forall_app. split; [done|]. apply Forall_forall. intros p Hin.
  apply list_elem_of_omap in Hin as (ref & _ & Href).
  by apply mergedOf_input in Href as [? _].
Qed.

Lemma loaded_plugins_have_truthy_input_witness :
  Forall (λ plugin, truthy_extensions (SnowpackPlugin.input plugin) = true)
         (Loaded.plugins Fixture.scriptsAndPluginsLoaded).
Proof.
  apply (loaded_plugins_have_truthy_input (Fixture.withGlobalName false)
           Fixture.scriptsAndPlugins).
  vm_compute. reflexivity.
Defined.

(** ** Script plugins *)

Lemma property_None_not_key {V} key (o : list (string * V)) :
  property key o = None → key ∉ o.*1.
Proof.
  induction o as [|[k w] o IH]; simpl; [intros _; apply not_elem_of_nil|].
  destruct (String.eqb_spec k key); [done|].
  intros H. apply not_elem_of_cons. split; [congruence | auto].
Qed.

Lemma property_key {V} key (o : list (string * V)) :
  key ∈ o.*1 → ∃ v, property key o = Some v ∧ (key, v) ∈ o.
Proof.
  induction o as [|[k w] o IH]; simpl; [by intros ?%elem_of_nil|].
  destruct (String.eqb_spec k key) as [->|Hne].
  - intros _. exists w. split; [done | by left].
  - intros [?|Hin]%elem_of_cons; [congruence|].
    destruct (IH Hin) as (v & ? & ?). exists v. split; [done | by right].
Qed.

Lemma scripts_loop_distinct h config l st :
  forEach (scriptStep h config) Locals.initial l = Ok st →
  NoDup (Locals.scriptPlugins st).*1.
Proof.
  intros Hrun. pattern st, l. eapply forEach_invariant; [| |exact Hrun].
  { constructor. }
  clear. intros st seen [target cmd] st' IH (parsed & _ & Hcase)%scriptStep_cases.
  destruct Hcase as [[Ht ->] | [(Ht & plugin & Hl & Hfree & ->) | [(Ht & Hl & ->) |
    [(Ht & dir & Hd & ->) | [(Ht & b & Hl & ->) | (? & ? & ? & ? & ->)]]]]];
    try done.
  simpl. rewrite fmap_app. apply NoDup_app. split; [done|]. split.
  - intros x Hx ->%list_elem_of_singleton. by apply property_None_not_key in Hfree.
  - apply NoDup_singleton.
Qed.

(** ** The mount format: paths and errors *)

Section Paths.
Import JsString.

Lemma append_nonempty s t : t ≠ "" → s +:+ t ≠ "".
Proof. by destruct s. Qed.

Lemma ends_with_append c s : ends_with c (s +:+ String c "") = true.
Proof.
  induction s as [|d s IH]; simpl; [apply Ascii.eqb_refl|].
  destruct (s +:+ String c "") eqn:E; [|done].
  by apply append_nonempty in E.
Qed.

Lemma ends_with_cons c d s : s ≠ "" → ends_with c (String d s) = ends_with c s.
Proof. by destruct s. Qed.

Lemma starts_with_append c s t :
  starts_with c s = true → starts_with c (s +:+ t) = true.
Proof. by destruct s. Qed.

(** [normalize] keeps a trailing separator ... *)
Lemma normalize_trailing path :
  ends_with "/" path = true → ends_with "/" (JsPath.normalize path) = true.
Proof.
  intros Hend. unfold JsPath.normalize. rewrite Hend.
  destruct (String.eqb_spec path "") as [->|_]; [done|].
  match goal with
  | |- context [String.eqb (join ?sep ?l) ""] => destruct (String.eqb (join sep l) "")
  end.
  - by destruct (starts_with "/" path).
  - destruct (starts_with "/" path).
    + match goal with
      | |- ends_with _ ("/" +:+ ?x) = true => change (ends_with "/" (String "/" x) = true)
      end.
      rewrite ends_with_cons by (by apply append_nonempty). apply ends_with_append.
    + apply ends_with_append.
Qed.

(** ... and a leading one. *)
Lemma normalize_absolute path :
  starts_with "/" path = true → starts_with "/" (JsPath.normalize path) = true.
Proof.
  intros Hstart. unfold JsPath.normalize. rewrite Hstart.
  destruct (String.eqb_spec path "") as [->|_]; [done|].
  by match goal with
     | |- context [String.eqb (join ?sep ?l) ""] => destruct (String.eqb (join sep l) "")
     end.
Qed.

Lemma toString_absolute v :
  ArgValue.first v = Some "/" → starts_with "/" (ArgValue.toString v) = true.
Proof.
  destruct v as [| | |s|l]; simpl; try done.
  - destruct s as [|c s]; [done|]. by intros [= ->].
  - destruct l as [|x l]; [done|]. intros [= ->]. by destruct l.
Qed.

End Paths.

(** The checks that a mount which is returned has passed, and its
    members. *)
Lemma parseMount_Ok h target cmd dir :
  parseMount h target cmd = Ok dir →
  head (JsString.split_spaces cmd) = Some "mount"
  ∧ MountedDir.id dir = target
  ∧ MountedDir.fromDisk dir
    = JsPath.normalize
        ((if String.eqb target "mount:web_modules" then DEV_DEPENDENCIES_DIR h
          else first_token (tail (JsString.split_spaces cmd))) +:+ "/")
  ∧ ∃ dirUrl, JsString.starts_with "/" dirUrl = true
              ∧ MountedDir.toUrl dir = JsPath.normalize (dirUrl +:+ "/").
Proof.
  unfold parseMount.
  destruct (bool_decide (head (JsString.split_spaces cmd) = Some "mount")) eqn:Hhead;
    [simpl|done].
  apply bool_decide_eq_true in Hhead.
  destruct (length _ =? 1)%nat; [simpl|done].
  destruct (ArgValue.truthy _) eqn:Htruthy; simpl.
  - destruct (bool_decide (ArgValue.first _ = Some "/")) eqn:Hfirst; [simpl|done].
    apply bool_decide_eq_true in Hfirst. intros [= <-]. simpl.
    split_and!; try done. eexists. split; [|reflexivity]. by apply toString_absolute.
  - intros [= <-]. simpl. split_and!; try done. eexists. split; [|reflexivity]. done.
Qed.

(** The paths of a mount that the mount case returns. *)
Lemma mount_paths h target cmd dir :
  parseMount h target cmd = Ok dir →
  MountedDir.id dir = target
  ∧ JsString.ends_with "/" (MountedDir.fromDisk dir) = true
  ∧ JsString.starts_with "/" (MountedDir.toUrl dir) = true
  ∧ JsString.ends_with "/" (MountedDir.toUrl dir) = true.
Proof.
  intros (_ & Hid & -> & dirUrl & Hurl & ->)%parseMount_Ok.
  split_and!; [done | | |].
  - apply normalize_trailing, ends_with_append.
  - by apply normalize_absolute, starts_with_append.
  - apply normalize_trailing, ends_with_append.
Qed.




(** ** The mounts of a result *)

(** A loop that ends normally has had each of its calls return. *)
Lemma forEach_all_steps {S A} (step : S → A → Outcome S) st l st' a :
  forEach step st l = Ok st' → a ∈ l → ∃ s s', step s a = Ok s'.
Proof.
  intros Hrun. revert a. pattern st', l. eapply forEach_invariant; [| |exact Hrun].
  - by intros a ?%elem_of_nil.
  - intros s seen b s1 IH Hstep a [Hin | ->%list_elem_of_singleton]%elem_of_app; eauto.
Qed.

Lemma mountOf_Some h entry dir :
  mountOf h entry = Some dir → parseMount h entry.1 entry.2 = Ok dir.
Proof.
  unfold mountOf. case_decide; [|done].
  by destruct (parseMount h entry.1 entry.2); intros [= ->].
Qed.



(** X9: when [config.scripts] has the key [mount:web_modules], the
    mount of lines 140-144 is not added: the mounts of the result are
    those of the [mount] directives, one of them has the id
    [mount:web_modules], and every mount with that id has the
    normalized [DEV_DEPENDENCIES_DIR], with a trailing separator, as
    [fromDisk], whatever directory its command names. *)
Theorem own_web_modules_mount h config r :
  "mount:web_modules" ∈ (SnowpackConfig.scripts config).*1 →
  loadPlugins h config = Ok r →
  Loaded.mountedDirs r = omap (mountOf h) (SnowpackConfig.scripts config)
  ∧ "mount:web_modules" ∈ MountedDir.id <$> Loaded.mountedDirs r
  ∧ Forall (λ dir, MountedDir.id dir = "mount:web_modules" →
                   MountedDir.fromDisk dir
                   = JsPath.normalize (DEV_DEPENDENCIES_DIR h +:+ "/"))
           (Loaded.mountedDirs r).
Proof.
  intros (cmd & Hprop & Hin)%property_key Hr.
  assert (Hdir : ∃ dir, parseMount h "mount:web_modules" cmd = Ok dir).
  { apply loadPlugins_Ok in Hr as (st & _ & (st0 & Hrun & _)%loadScripts_Ok & _).
    destruct (forEach_all_steps _ _ _ _ _ Hrun Hin) as (s & s' & Hstep).
    apply scriptStep_cases in Hstep as (parsed & Hp & Hcase).
    injection Hp as <-. simpl in Hcase.
    destruct Hcase as [[Ht _] | [(Ht & _) | [(Ht & _) |
      [(_ & dir & Hd & _) | [(Ht & _) | (_ & _ & Ht & _)]]]]]; try done.
    by exists dir. }
  destruct Hdir as (dir & Hdir).
  assert (Htruthy : truthy_string (Some cmd) = true).
  { destruct cmd; [|done]. by vm_compute in Hdir. }
  apply loadPlugins_result in Hr as (_ & _ & _ & -> & _).
  rewrite Hprop, Htruthy, app_nil_r. split_and!; [done | |].
  - apply list_elem_of_fmap. exists dir. split.
    + by apply mount_paths in Hdir as [-> _].
    + apply list_elem_of_omap. exists ("mount:web_modules", cmd). split; [done|].
      unfold mountOf. simpl. by rewrite Hdir.
  - apply Forall_forall.
    intros d (entry & _ & Hd%mountOf_Some%parseMount_Ok)%list_elem_of_omap Hid.
    destruct Hd as (_ & Hid' & -> & _). rewrite <- Hid', Hid. done.
Qed.

Lemma own_web_modules_mount_witness :
  Loaded.mountedDirs Fixture.ownWebModulesLoaded
    = omap (mountOf Fixture.node) (SnowpackConfig.scripts Fixture.ownWebModules)
  ∧ "mount:web_modules" ∈ MountedDir.id <$> Loaded.mountedDirs Fixture.ownWebModulesLoaded
  ∧ Forall (λ dir, MountedDir.id dir = "mount:web_modules" →
                   MountedDir.fromDisk dir
                   = JsPath.normalize (DEV_DEPENDENCIES_DIR Fixture.node +:+ "/"))
           (Loaded.mountedDirs Fixture.ownWebModulesLoaded).
Proof.
  apply (own_web_modules_mount Fixture.node Fixture.ownWebModules).
  - simpl. by apply list_elem_of_singleton.
  - vm_compute. reflexivity.
Defined.

(** ** Scripts that are shell commands only *)

Lemma omap_none {A B} (f : A → option B) (l : list A) :
  Forall (λ x, f x = None) l → omap f l = [].
Proof. induction 1 as [|x l Hx _ IH]; [done|]. simpl. by rewrite Hx. Qed.

Lemma scriptStep_shell h config st entry :
  scriptTypeOf entry.1 = Some "run"
  ∨ (scriptTypeOf entry.1 = Some "build"
     ∧ loadPluginFromScript h config entry.2 = None) →
  ∃ st', scriptStep h config st entry = Ok st'.
Proof.
  destruct entry as [target cmd]. unfold scriptTypeOf, scriptStep. simpl.
  destruct (parseScript target) as [parsed| |]; simpl; [|by intros [|[]]..].
  intros [[= ->] | [[= ->] ->]]; simpl; eauto.
Qed.

(** X18: a configuration without [plugins] whose scripts are all [run]
    directives or build directives with a command that does not load as
    a plugin always gets a result: no plugin, no bundler, and the mount
    of lines 140-144 as its only mount. *)
Theorem shell_scripts_return h config :
  Forall (λ entry, scriptTypeOf entry.1 = Some "run"
                   ∨ (scriptTypeOf entry.1 = Some "build"
                      ∧ loadPluginFromScript h config entry.2 = None))
         (SnowpackConfig.scripts config) →
  SnowpackConfig.plugins config = [] →
  ∃ r, loadPlugins h config = Ok r
       ∧ Loaded.plugins r = []
       ∧ Loaded.bundler r = None
       ∧ Loaded.mountedDirs r = [webModulesMount h].
Proof.
  intros Hshell Hplugins.
  assert (Hrun : ∀ st, ∃ st', forEach (scriptStep h config) st
                                (SnowpackConfig.scripts config) = Ok st').
  { induction Hshell as [|entry l Hentry _ IH]; intros st; [by eexists|].
    destruct (scriptStep_shell h config st entry Hentry) as (st1 & Hstep).
    destruct (IH st1) as (st' & Hrest). exists st'.
    by rewrite forEach_cons, Hstep. }
  destruct (Hrun Locals.initial) as (st0 & Hst0).
  assert (Hr : ∃ r, loadPlugins h config = Ok r).
  { unfold loadPlugins, loadScripts. rewrite Hst0, Hplugins. simpl. by eexists. }
  destruct Hr as (r & Hr). exists r. split; [done|].
  apply loadPlugins_result in Hr as (_ & _ & -> & -> & Hpl).
  assert (Hnone : ∀ (P : string * string → Prop) `{∀ x, Decision (P x)},
            (∀ entry, P entry → scriptTypeOf entry.1 ≠ Some "run"
                                ∧ ¬ (scriptTypeOf entry.1 = Some "build"
                                     ∧ loadPluginFromScript h config entry.2 = None)) →
            filter P (SnowpackConfig.scripts config) = []).
  { intros P ? HP. apply filter_none. eapply Forall_impl; [exact Hshell|].
    intros entry Hentry HPe. destruct (HP entry HPe) as [H1 H2].
    destruct Hentry as [?|?]; [by apply H1 | by apply H2]. }
  assert (Hsp : omap (scriptPluginOf h config) (SnowpackConfig.scripts config) = []).
  { apply omap_none. eapply Forall_impl; [exact Hshell|].
    intros entry Hentry. unfold scriptPluginOf.
    destruct Hentry as [Ht | [Ht Hl]]; rewrite Ht.
    - by rewrite decide_False by done.
    - rewrite decide_True by done. by rewrite Hl. }
  assert (Hmd : omap (mountOf h) (SnowpackConfig.scripts config) = []).
  { apply omap_none. eapply Forall_impl; [exact Hshell|].
    intros entry Hentry. unfold mountOf.
    destruct Hentry as [Ht | [Ht Hl]]; rewrite Ht; by rewrite decide_False by done. }
  assert (Hkey : property "mount:web_modules" (SnowpackConfig.scripts config) = None).
  { apply property_None_keys. intros (entry & Hfst & Hin)%list_elem_of_fmap.
    rewrite Forall_forall in Hshell. specialize (Hshell entry Hin).
    rewrite <- Hfst in Hshell. by destruct Hshell as [? | [? _]]. }
  rewrite Hsp, Hmd, Hkey in *. simpl. split_and!; [| |done].
  - destruct Hpl as [[_ ->] | (b & _ & -> & _)]; [done|]. by rewrite Hplugins.
  - rewrite Hnone; [done|]. intros entry Ht. split; [congruence|]. intros [? _]. congruence.
Qed.

Lemma shell_scripts_return_witness :
  ∃ r, loadPlugins Fixture.node
         {| SnowpackConfig.scripts := [("run:lint", "eslint ."); ("build:css", "postcss")];
            SnowpackConfig.plugins := [] |} = Ok r
       ∧ Loaded.plugins r = []
       ∧ Loaded.bundler r = None
       ∧ Loaded.mountedDirs r = [webModulesMount Fixture.node].
Proof.
  apply (shell_scripts_return Fixture.node).
  - simpl. constructor; [left; reflexivity|].
    constructor; [right; split; reflexivity | constructor].
  - reflexivity.
Defined.

(** ** More on [createBuildPipeline] *)

(** X15: when two plugin lists are indexed without error, so is the
    first followed by the second, and under every extension its chain
    is the chain of the first list followed by the chain of the
    second. *)
Theorem createBuildPipeline_app plugins1 plugins2 pipeline1 pipeline2 :
  createBuildPipeline plugins1 = Ok pipeline1 →
  createBuildPipeline plugins2 = Ok pipeline2 →
  ∃ pipeline,
    createBuildPipeline (plugins1 ++ plugins2) = Ok pipeline
    ∧ ∀ ext, chainOf pipeline ext = chainOf pipeline1 ext ++ chainOf pipeline2 ext.
Proof.
  intros H1 H2.
  destruct (index_clean _ _ _ clean_empty H1) as [Hown1 _].
  destruct (index_clean _ _ _ clean_empty H2) as [Hown2 _].
  destruct (index_returns (plugins1 ++ plugins2) ∅) as (pipeline & H).
  { by apply Forall_app. }
  exists pipeline. split; [done|]. intros ext.
  rewrite (createBuildPipeline_chain _ _ _ H), (createBuildPipeline_chain _ _ _ H1),
    (createBuildPipeline_chain _ _ _ H2).
  apply bind_app.
Qed.

Lemma createBuildPipeline_app_witness :
  ∃ pipeline,
    createBuildPipeline
      ([Fixture.jsxPlugin; Fixture.sveltePlugin] ++ [Fixture.minifyPlugin; Fixture.jsxPlugin])
    = Ok pipeline
    ∧ chainOf pipeline ".js"
      = [Fixture.jsxPlugin; Fixture.minifyPlugin; Fixture.jsxPlugin]
    ∧ chainOf pipeline ".svelte" = [Fixture.sveltePlugin].
Proof.
  destruct (createBuildPipeline_app
              [Fixture.jsxPlugin; Fixture.sveltePlugin]
              [Fixture.minifyPlugin; Fixture.jsxPlugin]
              {[ ".js" := [Fixture.jsxPlugin]; ".jsx" := [Fixture.jsxPlugin];
                 ".svelte" := [Fixture.sveltePlugin] ]}
              {[ ".js" := [Fixture.minifyPlugin; Fixture.jsxPlugin];
                 ".jsx" := [Fixture.jsxPlugin] ]})
    as (pipeline & Hp & Hchain).
  - vm_compute. reflexivity.
  - vm_compute. reflexivity.
  - exists pipeline. split; [exact Hp|]. rewrite !Hchain. split; reflexivity.
Defined.

(** X16: in a pipeline that the indexer returns, a plugin is in the
    chain of an extension exactly when it is in the plugin list and
    takes the extension; the pipeline has a key exactly for the
    extensions that some plugin takes, and none of its chains is
    empty. *)
Theorem createBuildPipeline_chains plugins pipeline ext :
  createBuildPipeline plugins = Ok pipeline →
  (∀ plugin, plugin ∈ chainOf pipeline ext ↔ plugin ∈ plugins ∧ takes plugin ext)
  ∧ (is_Some (pipeline !! ext) ↔ ∃ plugin, plugin ∈ plugins ∧ takes plugin ext)
  ∧ pipeline !! ext ≠ Some [].
Proof.
  intros H.
  assert (Hmem : ∀ plugin, plugin ∈ plugins ≫= copies ext
                           ↔ plugin ∈ plugins ∧ takes plugin ext).
  { intros plugin. rewrite list_elem_of_bind. split.
    - intros (q & [-> ?]%elem_of_copies & ?). done.
    - intros [? ?]. exists plugin. by rewrite elem_of_copies. }
  split; [intros plugin; by rewrite (createBuildPipeline_chain _ _ _ H)|].
  rewrite (index_Ok _ _ _ H), lookup_empty.
  destruct (plugins ≫= copies ext) as [|p chain] eqn:Hchain; simpl.
  - split; [|done]. split; [by intros [? ?]|].
    intros (plugin & Hin). apply Hmem in Hin. by apply elem_of_nil in Hin.
  - split; [|done]. split; [|by eauto]. intros _. exists p. apply Hmem. by left.
Qed.

Lemma createBuildPipeline_chains_witness :
  (Fixture.minifyPlugin
     ∈ chainOf {[ ".js" := [Fixture.jsxPlugin; Fixture.minifyPlugin];
                  ".jsx" := [Fixture.jsxPlugin];
                  ".svelte" := [Fixture.sveltePlugin] ]} ".js"
   ↔ Fixture.minifyPlugin
       ∈ [Fixture.jsxPlugin; Fixture.sveltePlugin; Fixture.minifyPlugin]
     ∧ takes Fixture.minifyPlugin ".js")
  ∧ (Fixture.sveltePlugin
       ∈ chainOf {[ ".js" := [Fixture.jsxPlugin; Fixture.minifyPlugin];
                    ".jsx" := [Fixture.jsxPlugin];
                    ".svelte" := [Fixture.sveltePlugin] ]} ".js"
     ↔ Fixture.sveltePlugin
         ∈ [Fixture.jsxPlugin; Fixture.sveltePlugin; Fixture.minifyPlugin]
       ∧ takes Fixture.sveltePlugin ".js").
Proof.
  destruct (createBuildPipeline_chains
              [Fixture.jsxPlugin; Fixture.sveltePlugin; Fixture.minifyPlugin]
              {[ ".js" := [Fixture.jsxPlugin; Fixture.minifyPlugin];
                 ".jsx" := [Fixture.jsxPlugin];
                 ".svelte" := [Fixture.sveltePlugin] ]} ".js")
    as (Hmem & _ & _).
  - vm_compute. reflexivity.
  - split; apply Hmem.
Defined.

(** X17: a plugin without [input] is filed under the key ["undefined"]:
    the call returns, the plugin is added at the end of that chain, and
    every other chain stays as it is. *)
Theorem indexPlugin_without_input pipeline plugin :
  SnowpackPlugin.input plugin = None →
  ∃ pipeline',
    indexPlugin pipeline plugin = Ok pipeline'
    ∧ pipeline' !! "undefined"
      = Some (default [] (pipeline !! "undefined") ++ [plugin])
    ∧ ∀ key, key ≠ "undefined" → pipeline' !! key = pipeline !! key.
Proof.
  intros Hinput.
  assert (Hinputs : inputs plugin = ["undefined"]) by (unfold inputs; by rewrite Hinput).
  unfold indexPlugin. rewrite Hinputs, forEach_cons.
  destruct (addPlugin_returns plugin pipeline "undefined" eq_refl) as (pipeline' & H).
  exists pipeline'. rewrite H. split; [done|]. split.
  - rewrite (addPlugin_Ok _ _ _ _ H). by rewrite decide_True by done.
  - intros key Hne. rewrite (addPlugin_Ok _ _ _ _ H). by rewrite decide_False by done.
Qed.

Lemma indexPlugin_without_input_witness :
  ∃ pipeline',
    indexPlugin {[ ".js" := [Fixture.jsxPlugin] ]} Fixture.barePlugin = Ok pipeline'
    ∧ pipeline' !! "undefined" = Some [Fixture.barePlugin]
    ∧ pipeline' !! ".js" = Some [Fixture.jsxPlugin].
Proof.
  destruct (indexPlugin_without_input {[ ".js" := [Fixture.jsxPlugin] ]}
              Fixture.barePlugin eq_refl) as (pipeline' & Hp & Hundefined & Hother).
  exists pipeline'. split; [exact Hp|]. split.
  - rewrite Hundefined. reflexivity.
  - rewrite Hother by discriminate. reflexivity.
Defined.

(** X22: [createBuildPipeline] throws a [TypeError] exactly when some
    plugin of the list takes an extension named like a member that
    objects inherit from [Object.prototype] ([constructor], [toString],
    [__proto__], ...), and returns a pipeline on every other list; it
    never ends in [handleError]. *)
Theorem createBuildPipeline_throws plugins :
  (createBuildPipeline plugins = Throw TypeError
   ↔ ∃ plugin ext, plugin ∈ plugins ∧ takes plugin ext ∧ inherited ext = true)
  ∧ (is_Some (returnedPipeline (createBuildPipeline plugins))
     ↔ ∀ plugin ext, plugin ∈ plugins → takes plugin ext → inherited ext = false)
  ∧ ∀ e, createBuildPipeline plugins ≠ Exit e.
Proof.
  destruct (decide (Forall (λ plugin, Forall (λ e, inherited e = false) (inputs plugin))
                           plugins)) as [Hown|Hbad].
  - assert (Hown' : Forall ownExtensions plugins).
    { eapply Forall_impl; [exact Hown|]. intros plugin. apply ownExtensions_inputs. }
    destruct (index_returns plugins ∅ Hown') as (pipeline & H).
    unfold createBuildPipeline. rewrite H. simpl. split_and!; [|split|done].
    + split; [done|]. intros (plugin & ext & Hin & Htakes & Hext).
      rewrite Forall_forall in Hown'. specialize (Hown' plugin Hin ext Htakes). congruence.
    + intros _ plugin ext Hin Htakes. rewrite Forall_forall in Hown'.
      exact (Hown' plugin Hin ext Htakes).
    + by eexists.
  - apply not_Forall_Exists in Hbad; [|apply _].
    assert (Hex : Exists (λ plugin, ¬ ownExtensions plugin) plugins).
    { eapply Exists_impl; [exact Hbad|]. simpl. intros plugin Hp Hown. apply Hp.
      by apply ownExtensions_inputs. }
    unfold createBuildPipeline. rewrite (index_throws _ _ clean_empty Hex). simpl.
    apply Exists_exists in Hbad as (plugin & Hin & Hp).
    apply not_Forall_Exists in Hp; [|apply _].
    apply Exists_exists in Hp as (ext & Hext & Hinh).
    assert (Hinherited : inherited ext = true)
      by (simpl in Hinh; destruct (inherited ext); [done | by destruct Hinh]).
    split_and!; [|split|done].
    + split; [|done]. intros _. exists plugin, ext.
      split_and!; [done | by apply takes_inputs | done].
    + by intros [? ?].
    + intros Hall.
      specialize (Hall plugin ext Hin (proj2 (takes_inputs _ _) Hext)). congruence.
Qed.

(** ** Directives and entries that end the run *)

Lemma omap_length_all {A B} (f : A → option B) (l : list A) x :
  length (omap f l) = length l → x ∈ l → is_Some (f x).
Proof.
  induction l as [|a l IH]; [by intros _ ?%elem_of_nil|].
  assert (Hle : ∀ l' : list A, (length (omap f l') ≤ length l')%nat).
  { induction l' as [|b l' IH']; simpl; [done|].
    unfold omap in IH'. destruct (f b); simpl; lia. }
  simpl. destruct (f a) as [y|] eqn:Hfa; simpl.
  - intros [= Hlen] [->|Hin]%elem_of_cons; [by rewrite Hfa | auto].
  - intros Hlen. pose proof (Hle l) as Hl. unfold omap in Hl. lia.
Qed.

(** X20: a configuration gets no result when one of its scripts has a
    key without a colon, is a [bundle] directive whose command does not
    load as a plugin, or is a [mount] directive whose command does not
    begin with the word [mount]. *)
Theorem failing_directive_never_returns h config target cmd :
  (target, cmd) ∈ SnowpackConfig.scripts config →
  includes ":" target = false
  ∨ (scriptTypeOf target = Some "bundle" ∧ loadPluginFromScript h config cmd = None)
  ∨ (scriptTypeOf target = Some "mount"
     ∧ head (JsString.split_spaces cmd) ≠ Some "mount") →
  returnedPlugins (loadPlugins h config) = None.
Proof.
  intros Hin Hbad.
  destruct (loadPlugins h config) as [r| |] eqn:Hr; [exfalso | done | done].
  apply loadPlugins_Ok in Hr as (st & _ & (st0 & Hrun & _)%loadScripts_Ok & _).
  destruct (forEach_all_steps _ _ _ _ _ Hrun Hin) as (s & s' & Hstep).
  apply scriptStep_cases in Hstep as (parsed & Hp & Hcase).
  destruct (scriptTypeOf_Ok _ _ Hp) as [Htype _].
  destruct Hbad as [Hcolon | [[Ht Hl] | [Ht Hhead]]].
  - unfold parseScript in Hp.
    rewrite <- includes_toLowerCase in Hcolon.
    by rewrite (split_without _ _ Hcolon) in Hp.
  - rewrite Htype in Ht. injection Ht as Ht.
    destruct Hcase as [[Ht' _] | [(Ht' & _) | [(Ht' & _) |
      [(Ht' & _) | [(_ & b & Hl' & _) | (_ & _ & _ & Ht' & _)]]]]]; congruence.
  - rewrite Htype in Ht. injection Ht as Ht.
    destruct Hcase as [[Ht' _] | [(Ht' & _) | [(Ht' & _) |
      [(_ & dir & Hd & _) | [(Ht' & _) | (_ & _ & Ht' & _)]]]]]; try congruence.
    by apply parseMount_Ok in Hd as [? _].
Qed.

Lemma failing_directive_never_returns_witness :
  returnedPlugins (loadPlugins Fixture.node Fixture.declaredTwiceAfterBadMount) = None.
Proof.
  apply (failing_directive_never_returns Fixture.node Fixture.declaredTwiceAfterBadMount
           "mount:public" "copy public").
  - simpl. by left.
  - right; right. split; [reflexivity | discriminate].
Defined.

(** X21: on every host, a configuration gets no result when an entry of
    [plugins] names a module that does not load, or a plugin that
    declares no input and either has no [defaultBuildScript] or has one
    without a colon. *)
Theorem failing_plugin_never_returns h config ref :
  ref ∈ SnowpackConfig.plugins config →
  (requirePlugin h config (pluginName_of ref) (Some (pluginOptions_of ref)))
    ≫= backfilled = None →
  returnedPlugins (loadPlugins h config) = None.
Proof.
  intros Hin Hbad.
  destruct (loadPlugins h config) as [r| |] eqn:Hr; [exfalso | done | done].
  apply loadPlugins_result in Hr as (_ & _ & _ & _ & [[Hnil _] | (b & _ & _ & Hlen)]).
  - rewrite Hnil in Hin. by apply elem_of_nil in Hin.
  - destruct (omap_length_all _ _ _ Hlen Hin) as [plugin Hplugin].
    unfold mergedOf in Hplugin.
    destruct (requirePlugin h config _ _) as [loaded|]; [simpl in *|done].
    by rewrite Hbad in Hplugin.
Qed.

Lemma failing_plugin_never_returns_witness :
  returnedPlugins
    (loadPlugins (Fixture.withGlobalName false)
       {| SnowpackConfig.scripts := [];
          SnowpackConfig.plugins :=
            [Specifier "@snowpack/plugin-svelte"; Specifier "@snowpack/plugin-babel"] |})
  = None.
Proof.
  apply (failing_plugin_never_returns (Fixture.withGlobalName false) _
           (Specifier "@snowpack/plugin-babel")).
  - simpl. rewrite !elem_of_cons. auto.
  - reflexivity.
Defined.

(** ** The plugin list of a result *)

Lemma omap_Forall2 {A B} (f : A → option B) (l : list A) :
  Forall2 (λ x y, f x = Some y) (filter (λ x, is_Some (f x)) l) (omap f l).
Proof.
  induction l as [|a l IH]; [constructor|].
  rewrite filter_cons. cbn [omap list_omap]. fold (omap f l).
  destruct (f a) as [y|] eqn:Hfa.
  - rewrite decide_True by (by eexists). by constructor.
  - rewrite decide_False by (by intros [? ?]). done.
Qed.

Lemma omap_total_Forall2 {A B} (f : A → option B) (l : list A) :
  length (omap f l) = length l → Forall2 (λ x y, f x = Some y) l (omap f l).
Proof.
  intros Hlen.
  assert (Hall : filter (λ x, is_Some (f x)) l = l).
  { clear -Hlen. induction l as [|a l IH]; [done|].
    rewrite filter_cons.
    destruct (omap_length_all f (a :: l) a Hlen) as [y Hy]; [by left|].
    rewrite decide_True by (by eexists). f_equal. apply IH.
    cbn [omap list_omap] in Hlen. fold (omap f l) in Hlen. rewrite Hy in Hlen.
    by injection Hlen. }
  rewrite <- Hall at 1. apply omap_Forall2.
Qed.

Section PluginList.
Context (h : Host) (config : SnowpackConfig.t).

Lemma scriptPluginOf_is_Some entry :
  is_Some (scriptPluginOf h config entry) ↔ isPluginDirective h config entry.
Proof.
  unfold scriptPluginOf, isPluginDirective, loadPluginFromScript.
  case_decide as Ht.
  - destruct (requirePlugin h config entry.2 None); simpl.
    + split; [by eauto | by eauto].
    + split; [by intros [? ?] | by intros [_ [? ?]]].
  - split; [by intros [? ?] | by intros [? _]].
Qed.

Lemma scriptPluginOf_Some entry kp :
  scriptPluginOf h config entry = Some kp →
  kp.1 = entry.2 ∧ scriptDerived h config entry kp.2.
Proof.
  unfold scriptPluginOf, scriptDerived, loadPluginFromScript, scriptTypeOf, extensionsOf.
  case_decide as Ht; [|done].
  destruct (parseScript entry.1) as [parsed| |]; [|done..].
  destruct (requirePlugin h config entry.2 None) as [loaded|]; [simpl|done].
  intros [= <-]. simpl. split; [done|]. by exists parsed, loaded.
Qed.

Lemma mergedOf_spec b ref plugin :
  mergedOf h config b ref = Some plugin → explicitlyMerged h config b ref plugin.
Proof.
  unfold mergedOf, explicitlyMerged, backfilled, renamed.
  intros H. exists (pluginName_of ref), (pluginOptions_of ref).
  destruct (requirePlugin h config _ _) as [loaded|]; [simpl in H|done].
  exists loaded. split; [by destruct ref|]. split; [done|].
  destruct (truthy_extensions (SnowpackPlugin.input loaded)) eqn:Hin.
  - injection H as <-. destruct b; simpl; (split; [by left | done]).
  - destruct (SnowpackPlugin.defaultBuildScript loaded) as [script|] eqn:Hdbs; [|done].
    destruct (truthy_string (Some script)); [|done]. simpl in H.
    destruct (parseScript script) as [parsed| |] eqn:Hp; [|done..].
    injection H as <-.
    destruct b; simpl; (split; [right; split; [done|]; by exists script, parsed | done]).
Qed.

(** The two parts of the plugin list of a result. *)
Lemma loadPlugins_plugins r :
  loadPlugins h config = Ok r →
  ∃ scripted explicit,
    Loaded.plugins r = scripted ++ explicit
    ∧ Forall2 (scriptDerived h config)
        (filter (isPluginDirective h config) (SnowpackConfig.scripts config)) scripted
    ∧ NoDup (filter (isPluginDirective h config) (SnowpackConfig.scripts config)).*2
    ∧ (SnowpackConfig.plugins config = [] ∧ explicit = []
       ∨ ∃ b, global_name h = Some b
              ∧ Forall2 (explicitlyMerged h config b)
                  (SnowpackConfig.plugins config) explicit).
Proof.
  intros Hr.
  assert (Hpairs : Forall2 (λ entry kp, scriptPluginOf h config entry = Some kp)
                     (filter (isPluginDirective h config) (SnowpackConfig.scripts config))
                     (omap (scriptPluginOf h config) (SnowpackConfig.scripts config))).
  { rewrite <- (list_filter_iff _ _ _ scriptPluginOf_is_Some). apply omap_Forall2. }
  assert (Hkeys : (omap (scriptPluginOf h config) (SnowpackConfig.scripts config)).*1
                  = (filter (isPluginDirective h config) (SnowpackConfig.scripts config)).*2).
  { induction Hpairs as [|entry kp l l' Hkp _ IH]; [done|].
    rewrite !fmap_cons, IH. f_equal. by apply scriptPluginOf_Some in Hkp as [? _]. }
  assert (Hdistinct : NoDup (omap (scriptPluginOf h config)
                               (SnowpackConfig.scripts config)).*1).
  { pose proof Hr as (st & _ & (st0 & Hrun & _)%loadScripts_Ok & _)%loadPlugins_Ok.
    pose proof (scripts_loop_distinct _ _ _ _ Hrun) as Hd.
    by apply scripts_loop_result in Hrun as (_ & _ & <- & _). }
  assert (Hscripted : Forall2 (scriptDerived h config)
            (filter (isPluginDirective h config) (SnowpackConfig.scripts config))
            (omap (scriptPluginOf h config) (SnowpackConfig.scripts config)).*2).
  { apply Forall2_fmap_r. eapply Forall2_impl; [exact Hpairs|].
    intros entry kp Hkp. by apply scriptPluginOf_Some in Hkp as [_ ?]. }
  apply loadPlugins_result in Hr as (_ & _ & _ & _ & [[Hnil ->] | (b & Hb & -> & Hlen)]).
  - eexists _, []. rewrite app_nil_r. split_and!; [done | done | by rewrite <- Hkeys |].
    by left.
  - eexists _, _. split_and!; [done | done | by rewrite <- Hkeys |].
    right. exists b. split; [done|].
    eapply Forall2_impl; [by apply omap_total_Forall2|].
    intros ref plugin. apply mergedOf_spec.
Qed.

End PluginList.

(** X5: the plugin list of a result starts with one plugin for each
    build directive whose command loads as a plugin, in the order of the
    scripts: the loaded object with the command as its name and the
    extensions of the key as its input and output.  The plugins of the
    entries of [plugins] follow, one for each.  No two of these
    directives have the same command. *)
Theorem script_plugins_in_directive_order h config r :
  loadPlugins h config = Ok r →
  ∃ scripted explicit,
    Loaded.plugins r = scripted ++ explicit
    ∧ length explicit = length (SnowpackConfig.plugins config)
    ∧ Forall2 (scriptDerived h config)
        (filter (isPluginDirective h config) (SnowpackConfig.scripts config)) scripted
    ∧ NoDup (filter (isPluginDirective h config) (SnowpackConfig.scripts config)).*2.
Proof.
  intros (scripted & explicit & Hpl & Hs & Hd & He)%loadPlugins_plugins.
  exists scripted, explicit. split_and!; try done.
  destruct He as [[-> ->] | (b & _ & He)]; [done|]. symmetry. by eapply Forall2_length.
Qed.

Lemma script_plugins_in_directive_order_witness :
  Forall2 (scriptDerived (Fixture.withGlobalName false) Fixture.twoScriptPlugins)
    [("build:js,jsx", "@snowpack/plugin-babel"); ("build:vue", "@snowpack/plugin-vue")]
    [Fixture.babelJsJsx; Fixture.vueBySpecifier]
  ∧ NoDup ["@snowpack/plugin-babel"; "@snowpack/plugin-vue"].
Proof.
  destruct (script_plugins_in_directive_order (Fixture.withGlobalName false)
              Fixture.twoScriptPlugins Fixture.twoScriptPluginsLoaded)
    as (scripted & explicit & Hpl & Hlen & Hder & Hdistinct).
  - vm_compute. reflexivity.
  - assert (Hfilter : filter (isPluginDirective (Fixture.withGlobalName false)
                                Fixture.twoScriptPlugins)
                        (SnowpackConfig.scripts Fixture.twoScriptPlugins)
                      = [("build:js,jsx", "@snowpack/plugin-babel");
                         ("build:vue", "@snowpack/plugin-vue")])
      by (vm_compute; reflexivity).
    rewrite Hfilter in Hder, Hdistinct. split; [|exact Hdistinct].
    pose proof (Forall2_length _ _ _ Hder) as Hl.
    destruct scripted as [|p1 [|p2 [|p3 scripted]]]; try discriminate Hl.
    simpl in Hpl. injection Hpl as <- <- _. exact Hder.
Defined.

(** X14: on a host whose global [name] has the truthiness [b], the
    plugin list of a result is the script plugins followed by one
    plugin for each entry of [plugins], in the order of the entries:
    the loaded object with its own input and output when its input is
    truthy and with the extensions of its [defaultBuildScript] as both
    otherwise, and with the specifier as its name when [b] is false. *)
Theorem plugins_in_declaration_order h config r b :
  global_name h = Some b →
  loadPlugins h config = Ok r →
  ∃ scripted explicit,
    Loaded.plugins r = scripted ++ explicit
    ∧ length scripted
      = length (filter (isPluginDirective h config) (SnowpackConfig.scripts config))
    ∧ Forall2 (explicitlyMerged h config b) (SnowpackConfig.plugins config) explicit.
Proof.
  intros Hb (scripted & explicit & Hpl & Hs & _ & He)%loadPlugins_plugins.
  exists scripted, explicit. split_and!; [done | symmetry; by eapply Forall2_length |].
  destruct He as [[-> ->] | (b' & Hb' & He)]; [constructor|].
  by assert (b' = b) as -> by congruence.
Qed.

Lemma plugins_in_declaration_order_witness :
  Forall2 (explicitlyMerged (Fixture.withGlobalName false) Fixture.scriptsAndPlugins false)
    [Specifier "@snowpack/plugin-svelte"; WithOptions "@snowpack/plugin-vue" "{}"]
    [Fixture.svelteBySpecifier; Fixture.vueBySpecifier].
Proof.
  destruct (plugins_in_declaration_order (Fixture.withGlobalName false)
              Fixture.scriptsAndPlugins Fixture.scriptsAndPluginsFields false)
    as (scripted & explicit & Hpl & Hlen & Hmerged).
  - reflexivity.
  - vm_compute. reflexivity.
  - assert (Hfilter : filter (isPluginDirective (Fixture.withGlobalName false)
                                Fixture.scriptsAndPlugins)
                        (SnowpackConfig.scripts Fixture.scriptsAndPlugins)
                      = [("build:js", "@snowpack/plugin-babel")])
      by (vm_compute; reflexivity).
    rewrite Hfilter in Hlen.
    destruct scripted as [|p1 [|p2 scripted]]; try discriminate Hlen.
    simpl in Hpl. injection Hpl as _ <-. exact Hmerged.
Defined.

(** C3, as the specification states it, fails for the plugins of the
    [plugins] list: a plugin that declares an empty array of inputs
    passes the test of line 162 and is returned with an empty input
    set; and where the global [name] is truthy a plugin that declares
    no name is returned without one. *)
Lemma loaded_plugins_counterexample :
  returnedPlugins (loadPlugins Fixture.withEmptyInput Fixture.emptyInputPlugins)
  = Some [{| SnowpackPlugin.name := Some "snowpack-plugin-empty";
             SnowpackPlugin.input := Some (ExtensionList []);
             SnowpackPlugin.output := Some (ExtensionList []);
             SnowpackPlugin.defaultBuildScript := None;
             SnowpackPlugin.hooks := "build" |}]
  ∧ ¬ has_input {| SnowpackPlugin.name := Some "snowpack-plugin-empty";
                   SnowpackPlugin.input := Some (ExtensionList []);
                   SnowpackPlugin.output := Some (ExtensionList []);
                   SnowpackPlugin.defaultBuildScript := None;
                   SnowpackPlugin.hooks := "build" |}
  ∧ returnedPlugins (loadPlugins (Fixture.withGlobalName true) Fixture.vuePlugins)
    = Some [{| SnowpackPlugin.name := None;
               SnowpackPlugin.input := Some (ExtensionList ["vue"]);
               SnowpackPlugin.output := Some (ExtensionList ["vue"]);
               SnowpackPlugin.defaultBuildScript := Some "build:vue";
               SnowpackPlugin.hooks := "build" |}]
  ∧ ¬ has_name {| SnowpackPlugin.name := None;
                  SnowpackPlugin.input := Some (ExtensionList ["vue"]);
                  SnowpackPlugin.output := Some (ExtensionList ["vue"]);
                  SnowpackPlugin.defaultBuildScript := Some "build:vue";
                  SnowpackPlugin.hooks := "build" |}.
Proof.
  split_and!; [reflexivity | | reflexivity | ].
  - unfold has_input. simpl. by intros H.
  - unfold has_name. simpl. discriminate.
Qed.

(** C3, amended: the plugin list of a result is the script-derived
    plugins followed by one plugin for each entry of [plugins].  Where
    [require.resolve] rejects the empty specifier, every script-derived
    plugin has a name and a non-empty input set.  Every plugin of the
    [plugins] list has a truthy input, which is a non-empty set unless
    the loaded plugin itself declares an empty array.  (Nothing is
    stated of the names of the plugins of the [plugins] list.) *)
Theorem loaded_plugins_have_name_and_input h config r :
  (∀ cfg options, requirePlugin h cfg "" options = None) →
  loadPlugins h config = Ok r →
  ∃ scripted explicit,
    Loaded.plugins r = scripted ++ explicit
    ∧ length scripted
      = length (filter (isPluginDirective h config) (SnowpackConfig.scripts config))
    ∧ Forall (λ plugin, has_name plugin ∧ has_input plugin) scripted
    ∧ Forall2 (λ ref plugin,
                 truthy_extensions (SnowpackPlugin.input plugin) = true
                 ∧ (has_input plugin ∨ declaresEmptyInput h config ref))
        (SnowpackConfig.plugins config) explicit.
Proof.
  intros Hempty (scripted & explicit & Hpl & Hs & _ & He)%loadPlugins_plugins.
  exists scripted, explicit. split_and!; [done | symmetry; by eapply Forall2_length | |].
  - clear -Hs Hempty. induction Hs as [|entry p l l' Hp _ IH]; constructor; [|done].
    destruct Hp as (parsed & loaded & Hparse & Hl & Hname & Hin & _).
    unfold has_name, has_input. rewrite Hname, Hin. split.
    + destruct entry.2; [|done]. by rewrite Hempty in Hl.
    + by eapply parseScript_extensions_nonempty.
  - destruct He as [[-> ->] | (b & _ & He)]; [constructor|].
    eapply Forall2_impl; [exact He|]. clear. intros ref plugin.
    intros (specifier & options & loaded & Href & Hl & Hio & _).
    destruct Hio as [(Ht & Hin & _) | (_ & script & parsed & _ & Hp & Hin & _)].
    + split; [by rewrite Hin|]. unfold has_input. rewrite Hin.
      destruct (SnowpackPlugin.input loaded) as [[e|[|x exts]]|] eqn:Hloaded;
        [by left | | by left | done].
      right. by exists specifier, options, loaded.
    + split; [by rewrite Hin|]. left. unfold has_input. rewrite Hin.
      by eapply parseScript_extensions_nonempty.
Qed.

Lemma loaded_plugins_have_name_and_input_witness :
  Forall (λ plugin, has_name plugin ∧ has_input plugin) [Fixture.babelJs]
  ∧ Forall2 (λ ref plugin,
               truthy_extensions (SnowpackPlugin.input plugin) = true
               ∧ (has_input plugin
                  ∨ declaresEmptyInput (Fixture.withGlobalName false)
                      Fixture.scriptsAndPlugins ref))
      [Specifier "@snowpack/plugin-svelte"; WithOptions "@snowpack/plugin-vue" "{}"]
      [Fixture.svelteBySpecifier; Fixture.vueBySpecifier].
Proof.
  destruct (loaded_plugins_have_name_and_input (Fixture.withGlobalName false)
              Fixture.scriptsAndPlugins Fixture.scriptsAndPluginsFields)
    as (scripted & explicit & Hpl & Hlen & Hscripted & Hexplicit).
  - reflexivity.
  - vm_compute. reflexivity.
  - assert (Hfilter : filter (isPluginDirective (Fixture.withGlobalName false)
                                Fixture.scriptsAndPlugins)
                        (SnowpackConfig.scripts Fixture.scriptsAndPlugins)
                      = [("build:js", "@snowpack/plugin-babel")])
      by (vm_compute; reflexivity).
    rewrite Hfilter in Hlen.
    destruct scripted as [|p1 [|p2 scripted]]; try discriminate Hlen.
    simpl in Hpl. injection Hpl as <- <-. split; [exact Hscripted | exact Hexplicit].
Defined.
